(** * central_scraper.py: a shallow embedding and its verified properties

    The program reads a document from one of four sources (a remote SEC
    filing, a local HTML file, a PDF, a generic website), cuts the text into
    blank-line separated paragraphs and writes one JSON file.

    Python values are modelled as follows.
    - [str] is a list of Unicode code points ([ustring]); whitespace is the
      set recognised by [str.isspace], which is what [str.strip()] removes.
    - A [dict] is an insertion-ordered association list ([pydict]); writing
      an existing key updates the value in place, as in CPython.
    - Exceptions are values of [exn]; a call either returns or raises
      ([result]).  [print], [input] and the output file live in a [World]
      that is threaded through the program by a small state-and-error monad.
    - The libraries the script calls (requests, BeautifulSoup's parser,
      PyMuPDF, the file system) answer through the read-only record [Env]. *)

From Stdlib Require Import NArith ZArith Ascii String List Bool Lia.
From Stdlib Require Import DecimalN DecimalFacts.
From stdpp Require Import base list gmap.
Import ListNotations.

Set Warnings "-register-all".

Open Scope N_scope.
Open Scope list_scope.

(** ** Strings *)

(** A Python [str]: the sequence of its code points. *)
Definition ustring := list N.

(** ASCII literals; only used with 7-bit text. *)
Definition u (s : string) : ustring :=
  List.map N_of_ascii (list_ascii_of_string s).

Definition LF : N := 10.
Definition SPACE : N := 32.
Definition UNDERSCORE : N := 95.
Definition SLASH : N := 47.
Definition DOT : N := 46.

(** The paragraph boundary ["\n\n"]. *)
Definition blank_line : ustring := [LF; LF].

(** [str.isspace] on one code point (CPython's [_PyUnicode_IsWhitespace]). *)
Definition isspace (c : N) : bool :=
  ((0x09 <=? c) && (c <=? 0x0D))
  || ((0x1C <=? c) && (c <=? 0x1F))
  || (c =? 0x20) || (c =? 0x85) || (c =? 0xA0) || (c =? 0x1680)
  || ((0x2000 <=? c) && (c <=? 0x200A))
  || (c =? 0x2028) || (c =? 0x2029) || (c =? 0x202F) || (c =? 0x205F)
  || (c =? 0x3000).

Fixpoint lstrip (s : ustring) : ustring :=
  match s with
  | [] => []
  | c :: s' => if isspace c then lstrip s' else s
  end.

Definition rstrip (s : ustring) : ustring := rev (lstrip (rev s)).

(** [s.strip()] *)
Definition strip (s : ustring) : ustring := rstrip (lstrip s).

(** Truthiness of a [str]: non-empty. *)
Definition truthy (s : ustring) : bool :=
  match s with [] => false | _ :: _ => true end.

(** [a == b] on strings. *)
Fixpoint ustring_eqb (a b : ustring) : bool :=
  match a, b with
  | [], [] => true
  | x :: a', y :: b' => (x =? y) && ustring_eqb a' b'
  | _, _ => false
  end.

(** [s.startswith(p)] *)
Fixpoint starts_with (p s : ustring) : bool :=
  match p, s with
  | [], _ => true
  | _ :: _, [] => false
  | a :: p', b :: s' => (a =? b) && starts_with p' s'
  end.

(** [sep in s] *)
Fixpoint contains (sep s : ustring) : bool :=
  starts_with sep s ||
  match s with
  | [] => false
  | _ :: s' => contains sep s'
  end.

(** [sep.join(parts)] *)
Fixpoint join (sep : ustring) (parts : list ustring) : ustring :=
  match parts with
  | [] => []
  | [p] => p
  | p :: rest => p ++ sep ++ join sep rest
  end.

Definition cons_head (c : N) (parts : list ustring) : list ustring :=
  match parts with
  | [] => [[c]]
  | p :: rest => (c :: p) :: rest
  end.

(** [s.split(sep)] for a non-empty [sep] (Python raises [ValueError] on an
    empty one; the script only passes ["\n\n"]).  The scan goes from left to
    right; at an occurrence of [sep] the current piece is closed and the
    scan resumes after the separator, so occurrences never overlap.  [skip]
    counts the characters of the separator still to be passed over. *)
Fixpoint split_from (sep : ustring) (skip : nat) (s : ustring) : list ustring :=
  match s with
  | [] => [[]]
  | c :: s' =>
      match skip with
      | S k => split_from sep k s'
      | O =>
          if starts_with sep s
          then [] :: split_from sep (Nat.pred (length sep)) s'
          else cons_head c (split_from sep 0 s')
      end
  end.

Definition split (sep s : ustring) : list ustring := split_from sep 0 s.

(** [s.replace(old, new)] for one-character [old] and [new]. *)
Definition replace_char (old new : N) (s : ustring) : ustring :=
  List.map (fun c => if c =? old then new else c) s.

(** Decimal digits of a number, as [str(n)] and [f"{n}"] print them. *)
Fixpoint uint_codes (d : Decimal.uint) : ustring :=
  match d with
  | Decimal.Nil => []
  | Decimal.D0 d => 48 :: uint_codes d
  | Decimal.D1 d => 49 :: uint_codes d
  | Decimal.D2 d => 50 :: uint_codes d
  | Decimal.D3 d => 51 :: uint_codes d
  | Decimal.D4 d => 52 :: uint_codes d
  | Decimal.D5 d => 53 :: uint_codes d
  | Decimal.D6 d => 54 :: uint_codes d
  | Decimal.D7 d => 55 :: uint_codes d
  | Decimal.D8 d => 56 :: uint_codes d
  | Decimal.D9 d => 57 :: uint_codes d
  end.

Definition str_of_N (n : N) : ustring := uint_codes (N.to_uint n).

(** ** Dictionaries *)

(** An insertion-ordered [dict] with [str] keys. *)
Definition pydict (V : Type) := list (ustring * V).

(** [d[k] = v]: an existing key keeps its position, a new key goes last. *)
Fixpoint dict_set {V} (k : ustring) (v : V) (d : pydict V) : pydict V :=
  match d with
  | [] => [(k, v)]
  | (k', v') :: d' =>
      if ustring_eqb k k' then (k', v) :: d' else (k', v') :: dict_set k v d'
  end.

(** [d.get(k)] *)
Fixpoint dict_get {V} (k : ustring) (d : pydict V) : option V :=
  match d with
  | [] => None
  | (k', v') :: d' => if ustring_eqb k k' then Some v' else dict_get k d'
  end.

(** [d.pop(k, None)], result discarded: the binding of [k], if any, is
    removed (a dict holds at most one). *)
Fixpoint dict_pop {V} (k : ustring) (d : pydict V) : pydict V :=
  match d with
  | [] => []
  | (k', v') :: d' =>
      if ustring_eqb k k' then dict_pop k d' else (k', v') :: dict_pop k d'
  end.

(** [enumerate(l)], counting from [i]. *)
Fixpoint enumerate_from {A} (i : nat) (l : list A) : list (nat * A) :=
  match l with
  | [] => []
  | x :: l' => (i, x) :: enumerate_from (S i) l'
  end.

Definition enumerate {A} (l : list A) : list (nat * A) := enumerate_from 0 l.

(** A list comprehension [[e(x) for x in l if c(x)]]: [f x] is [Some (e x)]
    when [c x] holds and [None] otherwise. *)
Section Comprehension.
Context {A B : Type} (f : A -> option B).

Fixpoint filter_map (l : list A) : list B :=
  match l with
  | [] => []
  | x :: l' =>
      match f x with
      | Some y => y :: filter_map l'
      | None => filter_map l'
      end
  end.

End Comprehension.

(** ** Paragraph segmentation and the document entry (create_json_entry) *)

(** Line 81: [[p.strip() for p in raw_text.split("\n\n") if p.strip()]] *)
Definition segment (raw_text : ustring) : list ustring :=
  filter_map (fun p => if truthy (strip p) then Some (strip p) else None)
             (split blank_line raw_text).

(** The segmentation in the words of the specification: split on the
    boundary, trim each piece, drop the pieces that are empty after
    trimming, keep the order. *)
Definition spec_segments (raw_text : ustring) : list ustring :=
  List.filter truthy (List.map strip (split blank_line raw_text)).

(** [f"Paragraph_{i+1}"] *)
Definition paragraph_key (i : nat) : ustring :=
  u "Paragraph_" ++ str_of_N (N.of_nat (i + 1)).

(** Line 90: the dict comprehension over [enumerate(paragraphs)]. *)
Definition content_of (paragraphs : list ustring) : pydict ustring :=
  fold_left (fun d ip => dict_set (paragraph_key (fst ip)) (snd ip) d)
            (enumerate paragraphs) [].

(** The entry of the comprehension for one [(i, para)]. *)
Definition content_entry (ip : nat * ustring) : ustring * ustring :=
  (paragraph_key (fst ip), snd ip).

(** The dict literal returned by create_json_entry; its keys are fixed, so
    it is a record whose fields are in the order of the literal. *)
Record DocumentEntry := {
  document_name : ustring;
  document_type : ustring;
  document_link : ustring;
  issuer : ustring;
  resource_name : ustring;
  section_content : ustring;
  content : pydict ustring
}.

Definition create_json_entry
    (document_name document_type document_link issuer resource_name
     raw_text : ustring) : DocumentEntry :=
  let paragraphs := segment raw_text in
  {| document_name := document_name;
     document_type := document_type;
     document_link := document_link;
     issuer := issuer;
     resource_name := resource_name;
     section_content := raw_text;
     content := content_of paragraphs |}.

(** The dict literal [document_json] of main (lines 151-154). *)
Record Envelope := {
  company : ustring;
  documents : list DocumentEntry
}.

(** ** JSON serialisation (json.dump with indent=4) *)

Inductive json :=
| JStr (s : ustring)
| JArr (items : list json)
| JObj (members : list (ustring * json)).

Definition json_of_content (d : pydict ustring) : json :=
  JObj (List.map (fun kv => (fst kv, JStr (snd kv))) d).

Definition json_of_entry (e : DocumentEntry) : json :=
  JObj [ (u "document_name", JStr (document_name e));
         (u "document_type", JStr (document_type e));
         (u "document_link", JStr (document_link e));
         (u "issuer", JStr (issuer e));
         (u "resource_name", JStr (resource_name e));
         (u "section_content", JStr (section_content e));
         (u "content", json_of_content (content e)) ].

Definition json_of_envelope (e : Envelope) : json :=
  JObj [ (u "company", JStr (company e));
         (u "documents", JArr (List.map json_of_entry (documents e))) ].

Definition hex_digit (d : N) : N :=
  if d <? 10 then 48 + d else 87 + d.

(** ['{0:04x}'.format(n)] *)
Definition hex4 (n : N) : ustring :=
  [ hex_digit (N.shiftr n 12 mod 16); hex_digit (N.shiftr n 8 mod 16);
    hex_digit (N.shiftr n 4 mod 16); hex_digit (n mod 16) ].

Definition BACKSLASH : N := 92.
Definition DQUOTE : N := 34.

(** One character of a JSON string under [ensure_ascii=True] (the default):
    the short escapes, printable ASCII as it is, everything else as
    [\uXXXX], code points above the BMP as a surrogate pair. *)
Definition escape_char (c : N) : ustring :=
  if c =? DQUOTE then [BACKSLASH; DQUOTE]
  else if c =? BACKSLASH then [BACKSLASH; BACKSLASH]
  else if c =? 10 then BACKSLASH :: u "n"
  else if c =? 13 then BACKSLASH :: u "r"
  else if c =? 9 then BACKSLASH :: u "t"
  else if c =? 12 then BACKSLASH :: u "f"
  else if c =? 8 then BACKSLASH :: u "b"
  else if (0x20 <=? c) && (c <=? 0x7E) then [c]
  else if c <? 0x10000 then BACKSLASH :: u "u" ++ hex4 c
  else
    let n := c - 0x10000 in
    let s1 := N.lor 0xD800 (N.land (N.shiftr n 10) 0x3FF) in
    let s2 := N.lor 0xDC00 (N.land n 0x3FF) in
    BACKSLASH :: u "u" ++ hex4 s1 ++ BACKSLASH :: u "u" ++ hex4 s2.

Definition encode_str (s : ustring) : ustring :=
  DQUOTE :: flat_map escape_char s ++ [DQUOTE].

(** A line break followed by the indentation of nesting depth [level]. *)
Definition newline_indent (indent level : nat) : ustring :=
  LF :: repeat SPACE (indent * level).

(** [json.dumps(v, indent=indent)] at nesting depth [level]: an empty
    container is printed closed, a non-empty one puts each item on a line
    of its own; items are separated by [","] and a key from its value by
    [": "]. *)
Fixpoint encode (indent level : nat) (v : json) : ustring :=
  match v with
  | JStr s => encode_str s
  | JArr [] => u "[]"
  | JArr items =>
      u "[" ++ newline_indent indent (S level)
      ++ join (u "," ++ newline_indent indent (S level))
              (List.map (encode indent (S level)) items)
      ++ newline_indent indent level ++ u "]"
  | JObj [] => u "{}"
  | JObj members =>
      u "{" ++ newline_indent indent (S level)
      ++ join (u "," ++ newline_indent indent (S level))
              (List.map (fun kv => encode_str (fst kv) ++ u ": "
                                   ++ encode indent (S level) (snd kv))
                        members)
      ++ newline_indent indent level ++ u "}"
  end.

Definition json_dumps (indent : nat) (v : json) : ustring := encode indent 0 v.

(** ** Exceptions, results, the outside world *)

(** Instances of [Exception]: those of [requests.exceptions.RequestException]
    (ConnectionError, HTTPError, Timeout, ...) and all the others (OSError,
    UnicodeDecodeError, EOFError, PyMuPDF's errors, ...).  The payload is
    [str(e)]. *)
Inductive exn :=
| RequestException (msg : ustring)
| OtherException (msg : ustring).

Definition exn_str (e : exn) : ustring :=
  match e with RequestException m => m | OtherException m => m end.

(** [except requests.exceptions.RequestException] *)
Definition is_RequestException (e : exn) : bool :=
  match e with RequestException _ => true | OtherException _ => false end.

(** [except Exception] *)
Definition is_Exception (e : exn) : bool := true.

Inductive result (A : Type) :=
| Returns (a : A)
| Raises (e : exn).
Arguments Returns {A} a.
Arguments Raises {A} e.

(** What [requests.get] hands back. *)
Record Response := {
  status_code : Z;
  reason : ustring;
  response_url : ustring;
  text : ustring
}.

Definition str_of_Z (z : Z) : ustring :=
  if (z <? 0)%Z then 45 :: str_of_N (Z.to_N (- z)) else str_of_N (Z.to_N z).

(** [response.raise_for_status()]: HTTPError, a RequestException, on a 4xx
    or 5xx status. *)
Definition raise_for_status (r : Response) : result unit :=
  if ((400 <=? status_code r) && (status_code r <? 500))%Z then
    Raises (RequestException
              (str_of_Z (status_code r) ++ u " Client Error: " ++ reason r
               ++ u " for url: " ++ response_url r))
  else if ((500 <=? status_code r) && (status_code r <? 600))%Z then
    Raises (RequestException
              (str_of_Z (status_code r) ++ u " Server Error: " ++ reason r
               ++ u " for url: " ++ response_url r))
  else Returns tt.

(** The classes of string BeautifulSoup puts in a tree. *)
Inductive string_kind :=
| NavigableString
| CData
| Comment
| OtherString.   (* Doctype, Declaration, ProcessingInstruction, Script, ... *)

(** An attribute value: a string, or a list for multi-valued attributes. *)
Inductive attr_value :=
| AttrStr (s : ustring)
| AttrList (l : list ustring).

(** A node of the parse tree.  The BeautifulSoup object itself is a [Tag]
    named ["[document]"]. *)
Inductive node :=
| Str (kind : string_kind) (s : ustring)
| Tag (name : ustring) (attrs : pydict attr_value) (children : list node).

(** The answers of the libraries and of the operating system. *)
Record Env := {
  (** [requests.get(url, headers=...)] *)
  requests_get : ustring -> pydict ustring -> result Response;
  (** [open(path, "r", encoding="utf-8")] followed by [file.read()] *)
  read_text_file : ustring -> result ustring;
  (** [BeautifulSoup(markup, "html.parser")] *)
  html_parser : ustring -> result node;
  (** [fitz.open(path)], and for each page in order [page.get_text("text")] *)
  fitz_open : ustring -> result (list (result ustring));
  (** [open(path, "w", encoding="utf-8")]: the exception it raises, if any *)
  open_for_writing : ustring -> option exn
}.

Record TextFile := {
  file_encoding : ustring;
  file_text : ustring
}.

Record World := {
  (** the lines still to be read from standard input *)
  stdin : list ustring;
  (** what has been written to standard output, oldest first *)
  stdout : list ustring;
  (** the files of the working directory *)
  files : gmap ustring TextFile
}.

(** A computation: it reads and changes the world, and returns or raises. *)
Definition M (A : Type) : Type := World -> result A * World.

Definition ret {A} (a : A) : M A := fun w => (Returns a, w).

Definition bind {A B} (m : M A) (k : A -> M B) : M B :=
  fun w =>
    match m w with
    | (Returns a, w') => k a w'
    | (Raises e, w') => (Raises e, w')
    end.

Notation "'let*' x ':=' m 'in' k" := (bind m (fun x => k))
  (at level 10, x name, m at level 100, k at level 200).
Notation "m ';;' k" := (bind m (fun _ => k))
  (at level 100, k at level 200, right associativity).

(** A call that does not touch the world. *)
Definition lift {A} (r : result A) : M A := fun w => (r, w).

(** [try: body  except <class> as e: handler(e)] *)
Definition try_except {A} (body : M A) (handles : exn -> bool)
    (handler : exn -> M A) : M A :=
  fun w =>
    match body w with
    | (Returns a, w') => (Returns a, w')
    | (Raises e, w') => if handles e then handler e w' else (Raises e, w')
    end.

(** Text written to standard output. *)
Definition emit (s : ustring) (w : World) : World :=
  {| stdin := stdin w; stdout := stdout w ++ [s]; files := files w |}.

(** [print(s)] *)
Definition print (s : ustring) : M unit :=
  fun w => (Returns tt, emit (s ++ [LF]) w).

(** [input(prompt)]: the prompt is written, a line is read; at end of input
    EOFError is raised. *)
Definition input (prompt : ustring) : M ustring :=
  fun w =>
    let w' := emit prompt w in
    match stdin w' with
    | [] => (Raises (OtherException (u "EOF when reading a line")), w')
    | line :: rest =>
        (Returns line,
         {| stdin := rest; stdout := stdout w'; files := files w' |})
    end.

(** ** The parse tree: BeautifulSoup's find_all, get_text, decompose *)

(** [tag.descendants]: every node below [n], in document order. *)
Fixpoint descendants (n : node) : list node :=
  match n with
  | Str _ _ => []
  | Tag _ _ cs => concat (List.map (fun c => c :: descendants c) cs)
  end.

Definition is_tag_in (names : list ustring) (n : node) : bool :=
  match n with
  | Str _ _ => false
  | Tag name _ _ => existsb (ustring_eqb name) names
  end.

(** [soup.find_all(names)], also written [soup(names)]: the tags below
    [soup] whose name is one of [names], in document order. *)
Definition find_all (names : list ustring) (soup : node) : list node :=
  List.filter (is_tag_in names) (descendants soup).

(** The strings [get_text] looks at inside an ordinary tag such as [<p>]:
    NavigableString and CData, not comments and the like. *)
Definition interesting (k : string_kind) : bool :=
  match k with
  | NavigableString | CData => true
  | Comment | OtherString => false
  end.

(** [tag._all_strings(strip)]: the interesting strings below [tag] in
    document order; with [strip] each one is stripped and dropped when
    nothing is left. *)
Definition all_strings (do_strip : bool) (tag : node) : list ustring :=
  filter_map
    (fun d =>
       match d with
       | Str k s =>
           if interesting k then
             if do_strip then
               if truthy (strip s) then Some (strip s) else None
             else Some s
           else None
       | Tag _ _ _ => None
       end)
    (descendants tag).

(** [tag.get_text(separator, strip)] *)
Definition get_text (separator : ustring) (do_strip : bool) (tag : node)
    : ustring :=
  join separator (all_strings do_strip tag).

(** Lines 31, 55 and 71:
    [[p.get_text(separator=' ', strip=True) for p in soup.find_all("p")
      if p.get_text(strip=True)]] *)
Definition paragraph_texts (soup : node) : list ustring :=
  filter_map
    (fun p =>
       if truthy (get_text [] true p)
       then Some (get_text [SPACE] true p) else None)
    (find_all [u "p"] soup).

(** Lines 46-47: every tag found by [soup(names)] is decomposed, that is,
    taken out of the tree together with all it contains.  The list of tags
    is computed before the first removal, and decomposing a tag that went
    away with an enclosing one changes nothing, so the loop leaves the tree
    without any tag of these names. *)
Fixpoint decompose_all (names : list ustring) (n : node) : node :=
  match n with
  | Str k s => Str k s
  | Tag name attrs cs =>
      Tag name attrs
          (filter_map (fun c => if is_tag_in names c then None
                                else Some (decompose_all names c)) cs)
  end.

Definition table_presentation_attrs : list ustring :=
  [u "border"; u "cellspacing"; u "cellpadding"; u "width"].

(** Lines 51-52 for one table: [table.attrs.pop(attr, None)] for each of
    the four names. *)
Definition pop_presentation_attrs (attrs : pydict attr_value)
    : pydict attr_value :=
  fold_left (fun a attr => dict_pop attr a) table_presentation_attrs attrs.

(** The loop body of lines 50-52 applied to [n], if it is a table, and to
    every table below it. *)
Fixpoint strip_table_attrs (n : node) : node :=
  match n with
  | Str k s => Str k s
  | Tag name attrs cs =>
      Tag name
          (if ustring_eqb name (u "table")
           then pop_presentation_attrs attrs else attrs)
          (List.map strip_table_attrs cs)
  end.

(** Lines 50-52: the attributes are popped from every [table] tag that
    [soup.find_all('table')] returns, that is, every one below [soup];
    nothing else in the tree is touched. *)
Definition strip_table_attrs_below (soup : node) : node :=
  match soup with
  | Str k s => Str k s
  | Tag name attrs cs => Tag name attrs (List.map strip_table_attrs cs)
  end.

(** ** The four readers *)

(** Lines 10-17, the body of the [try]. *)
Fixpoint read_pages (pages : list (result ustring)) (text : ustring)
    : result ustring :=
  match pages with
  | [] => Returns text
  | Returns page_text :: rest => read_pages rest (text ++ page_text ++ [LF])
  | Raises e :: _ => Raises e
  end.

Definition extract_text_from_pdf (env : Env) (pdf_path : ustring)
    : M (option ustring) :=
  try_except
    (let* doc := lift (fitz_open env pdf_path) in
     let* text := lift (read_pages doc []) in
     ret (Some (strip text)))
    is_Exception
    (fun e => print (u "Error: " ++ exn_str e) ;; ret None).

Definition scrape_sec_document (env : Env) (url : ustring) : M ustring :=
  try_except
    (let* response := lift (requests_get env url []) in
     lift (raise_for_status response) ;;
     let* soup := lift (html_parser env (text response)) in
     let paragraphs := paragraph_texts soup in
     ret (join blank_line paragraphs))
    is_RequestException
    (fun e => ret (u "Error: " ++ exn_str e)).

(** Lines 40-52: the tree that scrape_local_html holds in [soup] when it
    comes to extract the text, after the file was read and parsed, the
    script and style elements were decomposed and the table attributes
    popped. *)
Definition scrape_local_html_soup (env : Env) (file_path : ustring) : M node :=
  let* html_content := lift (read_text_file env file_path) in
  let* soup := lift (html_parser env html_content) in
  let soup := decompose_all [u "script"; u "style"] soup in
  let soup := strip_table_attrs_below soup in
  ret soup.

Definition scrape_local_html (env : Env) (file_path : ustring) : M ustring :=
  try_except
    (let* soup := scrape_local_html_soup env file_path in
     let paragraphs := paragraph_texts soup in
     ret (join blank_line paragraphs))
    is_Exception
    (fun e => ret (u "Error: " ++ exn_str e)).

Definition scrape_website_text (env : Env) (url : ustring) : M ustring :=
  try_except
    (let headers := [(u "User-Agent", u "Mozilla/5.0")] in
     let* response := lift (requests_get env url headers) in
     lift (raise_for_status response) ;;
     let* soup := lift (html_parser env (text response)) in
     let paragraphs := paragraph_texts soup in
     ret (join blank_line paragraphs))
    is_RequestException
    (fun e => ret (u "Error: " ++ exn_str e)).

(** ** os.path (POSIX) *)

Fixpoint rfind_from (c : N) (i : Z) (s : ustring) (last : Z) : Z :=
  match s with
  | [] => last
  | x :: s' => rfind_from c (i + 1)%Z s' (if x =? c then i else last)
  end.

(** [s.rfind(c)]: the index of the last [c], or -1. *)
Definition rfind (c : N) (s : ustring) : Z := rfind_from c 0%Z s (-1)%Z.

(** [s[i:j]] for [0 <= i]. *)
Definition slice (i j : Z) (s : ustring) : ustring :=
  take (Z.to_nat j - Z.to_nat i) (drop (Z.to_nat i) s).

(** [os.path.basename(p)] *)
Definition basename (p : ustring) : ustring :=
  drop (Z.to_nat (rfind SLASH p + 1)) p.

(** [os.path.splitext(p)[0]]: the extension starts at the last dot of the
    last component, unless only dots come before it in that component. *)
Definition splitext_root (p : ustring) : ustring :=
  let sepIndex := rfind SLASH p in
  let dotIndex := rfind DOT p in
  if (sepIndex <? dotIndex)%Z
     && existsb (fun c => negb (c =? DOT)) (slice (sepIndex + 1) dotIndex p)
  then take (Z.to_nat dotIndex) p
  else p.

(** ** The driver *)

Definition pin : N := 0x1F4CC.
Definition cross_mark : N := 0x274C.
Definition check_mark : N := 0x2705.

Definition pdf_failure_message : ustring :=
  cross_mark :: u " Failed to extract text from the PDF. Exiting.".

Definition invalid_choice_message : ustring :=
  cross_mark :: u " Invalid choice. Please restart the script.".

Definition saved_message (json_filename : ustring) : ustring :=
  check_mark :: u " Scraped data saved to " ++ json_filename.

(** Lines 157-158: the file is opened for writing, which creates or empties
    it, and receives the serialised value.  The step is taken as a whole:
    it fails at [open], before the file is touched, or it goes through.  A
    failure of the write itself (a full disk), which would leave the file
    emptied or cut short, is outside the model. *)
Definition write_json (env : Env) (json_filename : ustring) (v : json)
    : M unit :=
  fun w =>
    match open_for_writing env json_filename with
    | Some e => (Raises e, w)
    | None =>
          (Returns tt,
         {| stdin := stdin w; stdout := stdout w;
            files := <[json_filename :=
                         {| file_encoding := u "utf-8";
                            file_text := json_dumps 4 v |}]> (files w) |})
    end.

(** Lines 147-160, reached by every branch that does not return early. *)
Definition save (env : Env)
    (document_name document_type document_link issuer resource_name
     raw_text : ustring) : M unit :=
  let json_filename :=
    replace_char SPACE UNDERSCORE document_name ++ u ".json" in
  let document_json :=
    {| company := issuer;
       documents := [create_json_entry document_name document_type
                       document_link issuer resource_name raw_text] |} in
  write_json env json_filename (json_of_envelope document_json) ;;
  print (saved_message json_filename).

(** [not raw_text] for a value that is [None] or a [str]. *)
Definition falsy (raw_text : option ustring) : bool :=
  match raw_text with
  | None => true
  | Some s => negb (truthy s)
  end.

(** The [str] behind a value that is not [None]. *)
Definition str_value (raw_text : option ustring) : ustring :=
  match raw_text with
  | Some s => s
  | None => []
  end.

(** Lines 104-110 and the common tail. *)
Definition branch_sec (env : Env) : M unit :=
  let* url := input (u "Enter SEC document URL: ") in
  let* raw_text := scrape_sec_document env url in
  let* document_name :=
    input (u "Enter document name (e.g., '10-K Report'): ") in
  let document_type := u "Raw Financials" in
  let document_link := url in
  let* issuer := input (u "Enter issuer name (e.g., 'FTX Trading Ltd.'): ") in
  let resource_name := u "SEC" in
  save env document_name document_type document_link issuer resource_name
       raw_text.

(** Lines 113-119 and the common tail. *)
Definition branch_local (env : Env) : M unit :=
  let* file_path := input (u "Enter the path to the local SEC HTML file: ") in
  let* raw_text := scrape_local_html env file_path in
  let document_name := splitext_root (basename file_path) in
  let document_type := u "Raw Financials" in
  let document_link := u "N/A" in
  let* issuer := input (u "Enter issuer name: ") in
  let resource_name := u "SEC" in
  save env document_name document_type document_link issuer resource_name
       raw_text.

(** Lines 122-132 and the common tail; [return] at line 126 ends the run. *)
Definition branch_pdf (env : Env) : M unit :=
  let* pdf_path := input (u "Enter the path to the PDF file: ") in
  let* raw_text := extract_text_from_pdf env pdf_path in
  if falsy raw_text then print pdf_failure_message
  else
    let raw_text := str_value raw_text in
    let document_name := splitext_root (basename pdf_path) in
    let* document_type := input (u "Enter document type: ") in
    let document_link := u "N/A" in
    let* issuer := input (u "Enter issuer name: ") in
    let* resource_name := input (u "Enter resource name: ") in
    save env document_name document_type document_link issuer resource_name
         raw_text.

(** Lines 135-141 and the common tail. *)
Definition branch_website (env : Env) : M unit :=
  let* url := input (u "Enter website URL: ") in
  let* raw_text := scrape_website_text env url in
  let* document_name := input (u "Enter document name: ") in
  let document_type := u "Market" in
  let document_link := url in
  let* issuer := input (u "Enter issuer name: ") in
  let* resource_name := input (u "Enter resource name: ") in
  save env document_name document_type document_link issuer resource_name
       raw_text.

(** Lines 103-145: the [if]/[elif] chain on [choice]. *)
Definition dispatch (env : Env) (choice : ustring) : M unit :=
  if ustring_eqb choice (u "1") then branch_sec env
  else if ustring_eqb choice (u "2") then branch_local env
  else if ustring_eqb choice (u "3") then branch_pdf env
  else if ustring_eqb choice (u "4") then branch_website env
  else print invalid_choice_message.

Definition main (env : Env) : M unit :=
  print (pin :: u " Choose the type of document to scrape:") ;;
  print (u "1. SEC Financial Document (Online)") ;;
  print (u "2. SEC Financial Document (Local HTML)") ;;
  print (u "3. PDF Document") ;;
  print (u "4. Website HTML") ;;
  let* choice := input (u "Enter the number of your choice: ") in
  dispatch env choice.

(** ** The extraction rule in the words of the specification *)

(** The interesting strings below a node, by recursion on the tree. *)
Fixpoint text_nodes (n : node) : list ustring :=
  match n with
  | Str k s => if interesting k then [s] else []
  | Tag _ _ cs => concat (List.map text_nodes cs)
  end.

(** The tags of a given name in a forest, in document order. *)
Fixpoint tags_named (name : ustring) (n : node) : list node :=
  match n with
  | Str _ _ => []
  | Tag nm _ cs =>
      (if ustring_eqb nm name then [n] else [])
      ++ concat (List.map (tags_named name) cs)
  end.

Definition tags_named_below (name : ustring) (soup : node) : list node :=
  match soup with
  | Str _ _ => []
  | Tag _ _ cs => concat (List.map (tags_named name) cs)
  end.

(** A tag has visible text when one of its strings is not all whitespace. *)
Definition has_visible_text (p : node) : bool :=
  existsb (fun s => truthy (strip s)) (text_nodes p).

(** The text of one paragraph: its strings, each trimmed, the empty ones
    dropped, joined by one space. *)
Definition paragraph_text (p : node) : ustring :=
  join [SPACE] (List.filter truthy (List.map strip (text_nodes p))).

Definition document_text (soup : node) : ustring :=
  join blank_line
       (List.map paragraph_text
                 (List.filter has_visible_text (tags_named_below (u "p") soup))).

(** [s.split()]: the maximal runs of non-whitespace characters of [s];
    [cur] is the run being read. *)
Fixpoint words_from (cur s : ustring) : list ustring :=
  match s with
  | [] => if truthy cur then [cur] else []
  | c :: s' =>
      if isspace c
      then (if truthy cur then cur :: words_from [] s' else words_from [] s')
      else words_from (cur ++ [c]) s'
  end.

(** Whitespace collapsed to single spaces and trimmed. *)
Definition collapse_whitespace (s : ustring) : ustring :=
  join [SPACE] (words_from [] s).

(** The reading of the rule under which all the whitespace inside a tag is
    collapsed: the text content of the tag, collapsed and trimmed. *)
Definition collapsed_paragraph_text (p : node) : ustring :=
  collapse_whitespace (concat (text_nodes p)).

Definition collapsed_document_text (soup : node) : ustring :=
  join blank_line
       (List.filter truthy
          (List.map collapsed_paragraph_text (tags_named_below (u "p") soup))).




(** What scrape_local_html extracts from a parsed document. *)
Definition cleaned (soup : node) : node :=
  strip_table_attrs_below (decompose_all [u "script"; u "style"] soup).

(** ** Paragraphs that survive the join and split round trip *)

(** A piece that has no boundary inside and does not end in a line feed:
    followed by the boundary, the first boundary found is that one. *)
Fixpoint closed_piece (p : ustring) : Prop :=
  match p with
  | [] => True
  | c :: p' => (c = LF -> exists d p'', p' = d :: p'' /\ d <> LF)
               /\ closed_piece p'
  end.

(** A paragraph as a reader produces it: not empty, trimmed, without a
    blank-line boundary inside. *)
Definition paragraph_ok (p : ustring) : Prop :=
  p <> [] /\ strip p = p /\ contains blank_line p = false.

(** The string [get_text] keeps of one node. *)
Definition pick_stripped (d : node) : option ustring :=
  match d with
  | Str k s =>
      if interesting k then
        if truthy (strip s) then Some (strip s) else None
      else None
  | Tag _ _ _ => None
  end.

Definition is_tag (n : node) : Prop :=
  match n with Str _ _ => False | Tag _ _ _ => True end.

(** ** Outcomes of a run *)

(** A run went through to line 160: the last thing printed is the message
    that names the file. *)
Definition succeeded (w : World) : Prop :=
  exists json_filename,
    last (stdout w) = Some (saved_message json_filename ++ [LF]).

(** A run ended at one of the two early returns. *)
Definition aborted (w : World) : Prop :=
  last (stdout w) = Some (pdf_failure_message ++ [LF])
  \/ last (stdout w) = Some (invalid_choice_message ++ [LF]).

(** The file main writes for [entry]. *)
Definition output_name (entry : DocumentEntry) : ustring :=
  replace_char SPACE UNDERSCORE (document_name entry) ++ u ".json".

Definition output_envelope (entry : DocumentEntry) : Envelope :=
  {| company := issuer entry; documents := [entry] |}.

Definition output_file (entry : DocumentEntry) : TextFile :=
  {| file_encoding := u "utf-8";
     file_text := json_dumps 4 (json_of_envelope (output_envelope entry)) |}.

(** The run wrote the file of [entry], and nothing else, into [F]. *)
Definition written (F : gmap ustring TextFile) (entry : DocumentEntry)
    (w : World) : Prop :=
  files w = <[output_name entry := output_file entry]> F
  /\ last (stdout w) = Some (saved_message (output_name entry) ++ [LF])
  /\ entry = create_json_entry (document_name entry) (document_type entry)
               (document_link entry) (issuer entry) (resource_name entry)
               (section_content entry).

(** What a run of main can come to, starting with the files [F]. *)
Definition outcome (F : gmap ustring TextFile) (r : result unit) (w : World)
    : Prop :=
  match r with
  | Raises _ => files w = F
  | Returns _ => (files w = F /\ aborted w) \/ exists entry, written F entry w
  end.

(** Every run of [m] that starts with the files [F] ends in [Q]. *)
Definition runs {A : Type} (F : gmap ustring TextFile) (m : M A)
    (Q : result A -> World -> Prop) : Prop :=
  forall w, files w = F -> Q (fst (m w)) (snd (m w)).

(** [m] leaves the files as they are, whatever it returns or raises. *)
Definition keeps_files {A : Type} (m : M A) : Prop :=
  forall F, runs F m (fun _ w => files w = F).


(** ** Failures of the PDF reader *)

(** The extraction raises [e]: opening the file does, or the first page
    that cannot be read does, after the pages [before] were read. *)
Definition pdf_raises (env : Env) (pdf_path : ustring) (e : exn) : Prop :=
  fitz_open env pdf_path = Raises e
  \/ exists before rest,
      fitz_open env pdf_path
      = Returns (List.map Returns before ++ Raises e :: rest).

(** The text of the pages, each followed by a line feed. *)
Definition pages_text (texts : list ustring) : ustring :=
  concat (List.map (fun page_text => page_text ++ [LF]) texts).

(** A request fails with [e]: requests.get raises a RequestException, or
    the status of the response is an error. *)
Definition fetch_fails (env : Env) (url : ustring) (headers : pydict ustring)
    (e : exn) : Prop :=
  (requests_get env url headers = Raises e /\ is_RequestException e = true)
  \/ exists r, requests_get env url headers = Returns r
               /\ raise_for_status r = Raises e.

(** A request delivers the document [soup]. *)
Definition fetch_gives (env : Env) (url : ustring) (headers : pydict ustring)
    (soup : node) : Prop :=
  exists r, requests_get env url headers = Returns r
            /\ raise_for_status r = Returns tt
            /\ html_parser env (text r) = Returns soup.

(** ** A concrete environment

    [page.get_text("text")] gives the lines of a page, each one ended by a
    line feed: the two pages of two.pdf show one line each. *)

Definition document (children : list node) : node :=
  Tag (u "[document]") [] children.

Definition html_ab : ustring := u "<p>a  b</p>".

(** The tree of ["<p>a  b</p>"]. *)
Definition soup_ab : node :=
  document [Tag (u "p") [] [Str NavigableString (u "a  b")]].

Definition html_hello : ustring :=
  u "<p>Hello</p><script>evil()</script><p>World</p>".

(** The tree of ["<p>Hello</p><script>evil()</script><p>World</p>"]; the
    text of the script element is a string of its own class (Script). *)
Definition soup_hello : node :=
  document [ Tag (u "p") [] [Str NavigableString (u "Hello")];
             Tag (u "script") [] [Str OtherString (u "evil()")];
             Tag (u "p") [] [Str NavigableString (u "World")] ].

Definition url_ab : ustring := u "https://example.com/ab".
Definition url_gone : ustring := u "https://example.com/gone".

Definition demo_env : Env :=
  {| requests_get := fun url _ =>
       if ustring_eqb url url_ab then
         Returns {| status_code := 200; reason := u "OK";
                    response_url := url; text := html_ab |}
       else if ustring_eqb url url_gone then
         Returns {| status_code := 404; reason := u "Not Found";
                    response_url := url; text := [] |}
       else Raises (RequestException (u "Connection refused"));
     read_text_file := fun path =>
       if ustring_eqb path (u "hello.html") then Returns html_hello
       else Raises (OtherException (u "[Errno 2] No such file or directory"));
     html_parser := fun markup =>
       if ustring_eqb markup html_ab then Returns soup_ab
       else if ustring_eqb markup html_hello then Returns soup_hello
       else Returns (document []);
     fitz_open := fun path =>
       if ustring_eqb path (u "two.pdf")
       then Returns [Returns (u "Page1 text" ++ [LF]);
                     Returns (u "Page2 text" ++ [LF])]
       else if ustring_eqb path (u "blank.pdf") then Returns [Returns [SPACE]]
       else if ustring_eqb path (u "torn.pdf")
       then Returns [Returns (u "Page1 text" ++ [LF]);
                     Raises (OtherException (u "page is damaged"))]
       else Raises (OtherException (u "no such file"));
     open_for_writing := fun _ => None |}.

Definition world_of (lines : list ustring) : World :=
  {| stdin := lines; stdout := []; files := ∅ |}.

(** ** Further notions used by the properties of whole runs *)

(** A string without whitespace at either end that is not empty. *)
Definition trimmed_nonempty (s : ustring) : Prop :=
  s <> [] /\ lstrip s = s /\ rstrip s = s.

(** A run of main on [w] went through: it returned, read its input down
    to [rest], wrote the file of [entry] and nothing else, and named that
    file in its last message. *)
Definition saved_run (env : Env) (w : World) (rest : list ustring)
    (entry : DocumentEntry) : Prop :=
  exists w', main env w = (Returns tt, w')
             /\ stdin w' = rest
             /\ files w' = <[output_name entry := output_file entry]> (files w)
             /\ last (stdout w')
                = Some (saved_message (output_name entry) ++ [LF]).

(** An environment whose parser rejects every document. *)
Definition rejecting_env : Env :=
  {| requests_get := requests_get demo_env;
     read_text_file := read_text_file demo_env;
     html_parser := fun _ =>
       Raises (OtherException (u "The markup you provided was rejected"));
     fitz_open := fitz_open demo_env;
     open_for_writing := open_for_writing demo_env |}.

(** A request breaks with [e], an exception that is not a RequestException:
    requests.get raises it, or the parser does on the body of a response
    whose status is no error. *)
Definition fetch_breaks (env : Env) (url : ustring) (headers : pydict ustring)
    (e : exn) : Prop :=
  is_RequestException e = false
  /\ (requests_get env url headers = Raises e
      \/ exists r, requests_get env url headers = Returns r
                   /\ raise_for_status r = Returns tt
                   /\ html_parser env (text r) = Raises e).

(** The header dictionary of scrape_website_text. *)
Definition website_headers : pydict ustring :=
  [(u "User-Agent", u "Mozilla/5.0")].

(** ** What main has in hand at line 147 *)





(** * Properties *)

(** ** Strings *)

Lemma ustring_eqb_eq (a b : ustring) : ustring_eqb a b = true <-> a = b.
Proof.
  revert b; induction a as [|x a IH]; intros [|y b]; simpl; split;
    try congruence; try done.
  - intros [Hxy Hab]%andb_prop. apply N.eqb_eq in Hxy. apply IH in Hab.
    congruence.
  - intros [= -> ->]. rewrite N.eqb_refl. simpl. by apply IH.
Qed.

Lemma ustring_eqb_refl (a : ustring) : ustring_eqb a a = true.
Proof. by apply ustring_eqb_eq. Qed.

Lemma ustring_eqb_neq (a b : ustring) : a <> b -> ustring_eqb a b = false.
Proof.
  intros Hne. destruct (ustring_eqb a b) eqn:E; [|done].
  by apply ustring_eqb_eq in E.
Qed.

Lemma truthy_true (s : ustring) : truthy s = true <-> s <> [].
Proof. destruct s; simpl; split; congruence. Qed.

Lemma truthy_false (s : ustring) : truthy s = false <-> s = [].
Proof. destruct s; simpl; split; congruence. Qed.

(** [lstrip] leaves nothing, or something that starts with a visible
    character. *)
Lemma lstrip_head (s : ustring) :
  lstrip s = [] \/ exists c t, lstrip s = c :: t /\ isspace c = false.
Proof.
  induction s as [|c s IH]; simpl; [by left|].
  destruct (isspace c) eqn:E; [done|]. right. by exists c, s.
Qed.

Lemma lstrip_fixed (c : N) (s : ustring) :
  isspace c = false -> lstrip (c :: s) = c :: s.
Proof. intros E. simpl. by rewrite E. Qed.

Lemma lstrip_idem (s : ustring) : lstrip (lstrip s) = lstrip s.
Proof.
  destruct (lstrip_head s) as [->|(c & t & -> & E)]; [done|].
  by apply lstrip_fixed.
Qed.

Lemma lstrip_length (s : ustring) :
  lstrip s = s \/ (length (lstrip s) < length s)%nat.
Proof.
  induction s as [|c s IH]; simpl; [by left|].
  destruct (isspace c); [|by left].
  right. destruct IH as [->|IH]; lia.
Qed.

Lemma lstrip_snoc (s : ustring) (c : N) :
  isspace c = false -> lstrip (s ++ [c]) = lstrip s ++ [c].
Proof.
  intros E. induction s as [|x s IH]; simpl; [by rewrite E|].
  by destruct (isspace x).
Qed.

Lemma rstrip_cons (c : N) (s : ustring) :
  isspace c = false -> rstrip (c :: s) = c :: rstrip s.
Proof.
  intros E. unfold rstrip. simpl. rewrite lstrip_snoc by done.
  by rewrite rev_app_distr.
Qed.

Lemma rstrip_length (s : ustring) :
  rstrip s = s \/ (length (rstrip s) < length s)%nat.
Proof.
  unfold rstrip. destruct (lstrip_length (rev s)) as [->|H].
  - left. apply rev_involutive.
  - right. rewrite length_rev. by rewrite length_rev in H.
Qed.

Lemma rstrip_idem (s : ustring) : rstrip (rstrip s) = rstrip s.
Proof. unfold rstrip. by rewrite rev_involutive, lstrip_idem. Qed.

(** A stripped string has no whitespace left at either end. *)
Lemma lstrip_strip (s : ustring) : lstrip (strip s) = strip s.
Proof.
  unfold strip. destruct (lstrip_head s) as [->|(c & t & -> & E)]; [done|].
  rewrite rstrip_cons by done. by apply lstrip_fixed.
Qed.

Lemma rstrip_strip (s : ustring) : rstrip (strip s) = strip s.
Proof. unfold strip. apply rstrip_idem. Qed.

Lemma strip_idem (s : ustring) : strip (strip s) = strip s.
Proof. unfold strip at 1. by rewrite lstrip_strip, rstrip_strip. Qed.

(** A string that [strip] leaves alone is left alone by both halves. *)
Lemma strip_fixed_inv (s : ustring) :
  strip s = s -> lstrip s = s /\ rstrip s = s.
Proof.
  intros H. unfold strip in H.
  destruct (lstrip_length s) as [Hl|Hl].
  - rewrite Hl in H. done.
  - exfalso. destruct (rstrip_length (lstrip s)) as [Hr|Hr]; rewrite H in Hr.
    + rewrite <- Hr in Hl. lia.
    + lia.
Qed.

(** The last character of a trimmed string is not a line feed. *)
Lemma rstrip_fixed_last (s : ustring) (c : N) :
  rstrip (s ++ [c]) = s ++ [c] -> isspace c = false.
Proof.
  unfold rstrip. rewrite rev_app_distr. simpl.
  destruct (isspace c) eqn:E; [|done].
  intros H. apply (f_equal (@length N)) in H.
  rewrite length_rev, length_app in H. simpl in H.
  destruct (lstrip_length (rev s)) as [Hl|Hl].
  - rewrite Hl, length_rev in H. lia.
  - rewrite length_rev in Hl. lia.
Qed.

(** ** split and join *)

Lemma join_cons2 (sep p q : ustring) (rest : list ustring) :
  join sep (p :: q :: rest) = p ++ sep ++ join sep (q :: rest).
Proof. reflexivity. Qed.

Lemma split_from_nonempty (sep : ustring) (k : nat) (s : ustring) :
  split_from sep k s <> [].
Proof.
  revert k; induction s as [|c s IH]; intros k; simpl; [done|].
  destruct k; [|apply IH].
  destruct (starts_with sep (c :: s)); [done|].
  specialize (IH 0%nat). by destruct (split_from sep 0 s).
Qed.

Lemma starts_with_app (p s : ustring) : starts_with p (p ++ s) = true.
Proof. induction p as [|a p IH]; simpl; [done|]. by rewrite N.eqb_refl. Qed.

Lemma starts_with_inv (p s : ustring) :
  starts_with p s = true -> exists t, s = p ++ t.
Proof.
  revert s; induction p as [|a p IH]; intros s; simpl; [by exists s|].
  destruct s as [|b s]; [done|].
  intros [Hab Hps]%andb_prop. apply N.eqb_eq in Hab as ->.
  destruct (IH _ Hps) as [t ->]. by exists t.
Qed.

(** Passing over the rest of a matched separator. *)
Lemma split_from_skip (sep p s : ustring) :
  split_from sep (length p) (p ++ s) = split_from sep 0 s.
Proof. induction p as [|a p IH]; simpl; [by destruct s|done]. Qed.

(** The two equations of [split]: at a separator a piece ends and the scan
    goes on behind it; elsewhere the character joins the current piece. *)
Lemma split_at_sep (sep s : ustring) :
  sep <> [] -> split sep (sep ++ s) = [] :: split sep s.
Proof.
  intros Hsep. unfold split. destruct sep as [|a sep]; [done|].
  cbn [app split_from]. change (a :: sep ++ s) with ((a :: sep) ++ s).
  rewrite starts_with_app. cbn [length Nat.pred].
  by rewrite split_from_skip.
Qed.

Lemma split_no_sep (sep : ustring) (c : N) (s : ustring) :
  starts_with sep (c :: s) = false ->
  split sep (c :: s) = cons_head c (split sep s).
Proof. intros H. unfold split. cbn [split_from]. by rewrite H. Qed.

Lemma join_cons_head (sep : ustring) (c : N) (parts : list ustring) :
  parts <> [] -> join sep (cons_head c parts) = c :: join sep parts.
Proof. destruct parts as [|p [|q rest]]; done. Qed.

Lemma join_cons_nonempty (sep p : ustring) (parts : list ustring) :
  parts <> [] -> join sep (p :: parts) = p ++ sep ++ join sep parts.
Proof. destruct parts; done. Qed.

(** Joining the pieces with the separator gives the string back. *)
Lemma join_split (sep s : ustring) :
  sep <> [] -> join sep (split sep s) = s.
Proof.
  intros Hsep. remember (length s) as n eqn:Hn. revert s Hn.
  induction n as [n IH] using lt_wf_ind. intros s Hn.
  destruct s as [|c s]; [done|].
  destruct (starts_with sep (c :: s)) eqn:E.
  - apply starts_with_inv in E as [t E]. rewrite E.
    rewrite split_at_sep by done.
    rewrite join_cons_nonempty by apply split_from_nonempty.
    rewrite (IH (length t)); [done| |done].
    subst n. rewrite E, length_app. destruct sep; [done|simpl; lia].
  - rewrite split_no_sep by done.
    rewrite join_cons_head by apply split_from_nonempty.
    f_equal. apply (IH (length s)); [subst n; simpl; lia|done].
Qed.

Lemma starts_with_app_l (p a b : ustring) :
  starts_with p a = true -> starts_with p (a ++ b) = true.
Proof.
  intros [t ->]%starts_with_inv. rewrite <- app_assoc. apply starts_with_app.
Qed.

(** The first piece is a prefix of the string. *)
Lemma split_head_prefix (sep s : ustring) :
  sep <> [] -> exists p rest t, split sep s = p :: rest /\ s = p ++ t.
Proof.
  intros Hsep. pose proof (join_split sep s Hsep) as Hjoin.
  destruct (split sep s) as [|p [|q rest]] eqn:E.
  - by apply split_from_nonempty in E.
  - exists p, [], []. simpl in Hjoin. by rewrite app_nil_r.
  - exists p, (q :: rest), (sep ++ join sep (q :: rest)). by rewrite <- Hjoin.
Qed.

(** No piece contains the separator. *)
Lemma split_pieces_clean (sep s : ustring) :
  sep <> [] -> Forall (fun p => contains sep p = false) (split sep s).
Proof.
  intros Hsep. remember (length s) as n eqn:Hn. revert s Hn.
  induction n as [n IH] using lt_wf_ind. intros s Hn.
  assert (Hnil : contains sep [] = false) by by destruct sep.
  destruct s as [|c s]; [by repeat constructor|].
  destruct (starts_with sep (c :: s)) eqn:E.
  - apply starts_with_inv in E as [t E]. rewrite E.
    rewrite split_at_sep by done. constructor; [done|].
    apply (IH (length t)); [|done].
    subst n. rewrite E, length_app. destruct sep; [done|simpl; lia].
  - rewrite split_no_sep by done.
    destruct (split_head_prefix sep s Hsep) as (p & rest & t & Hsplit & Hs).
    specialize (IH (length s) ltac:(subst n; simpl; lia) s eq_refl).
    rewrite Hsplit in *. apply Forall_cons in IH as [Hp Hrest].
    cbn [cons_head]. constructor; [|done].
    cbn [contains]. rewrite Hp, orb_false_r.
    destruct (starts_with sep (c :: p)) eqn:E'; [|done].
    apply (starts_with_app_l _ _ t) in E'. cbn [app] in E'.
    rewrite <- Hs in E'. congruence.
Qed.

(** ** Paragraph segmentation *)

Lemma filter_map_strip (parts : list ustring) :
  filter_map (fun p => if truthy (strip p) then Some (strip p) else None) parts
  = List.filter truthy (List.map strip parts).
Proof.
  induction parts as [|p parts IH]; simpl; [done|].
  destruct (truthy (strip p)); by rewrite IH.
Qed.

(** The comprehension of line 81 computes what the specification says. *)
Lemma segment_spec (raw_text : ustring) :
  segment raw_text = spec_segments raw_text.
Proof. apply filter_map_strip. Qed.

Lemma segment_truthy (raw_text p : ustring) :
  In p (segment raw_text) -> truthy p = true.
Proof.
  rewrite segment_spec. unfold spec_segments.
  intros H. by apply filter_In in H as [_ H].
Qed.

Lemma segment_trimmed (raw_text p : ustring) :
  In p (segment raw_text) -> strip p = p.
Proof.
  rewrite segment_spec. unfold spec_segments.
  intros H. apply filter_In in H as [H _].
  apply in_map_iff in H as (q & <- & _). apply strip_idem.
Qed.

Lemma split_closed_piece (p rest : ustring) :
  closed_piece p ->
  split blank_line (p ++ blank_line ++ rest) = p :: split blank_line rest.
Proof.
  induction p as [|c p IH]; intros Hp.
  - by apply (split_at_sep blank_line rest).
  - destruct Hp as [Hc Hp]. cbn [app].
    rewrite split_no_sep.
    + by rewrite IH.
    + cbn [blank_line starts_with]. destruct (N.eqb_spec LF c) as [<-|]; [|done].
      destruct (Hc eq_refl) as (d & p'' & -> & Hd). cbn [app].
      destruct (N.eqb_spec LF d); [congruence|done].
Qed.

Lemma contains_cons_false (sep : ustring) (c : N) (s : ustring) :
  contains sep (c :: s) = false ->
  starts_with sep (c :: s) = false /\ contains sep s = false.
Proof. simpl. intros H. by apply orb_false_elim in H. Qed.

Lemma split_without_boundary (p : ustring) :
  contains blank_line p = false -> split blank_line p = [p].
Proof.
  induction p as [|c p IH]; [done|].
  intros [H1 H2]%contains_cons_false.
  rewrite split_no_sep by done. by rewrite IH.
Qed.

Lemma closed_piece_intro (p : ustring) :
  contains blank_line p = false -> rstrip p = p -> closed_piece p.
Proof.
  induction p as [|c p IH]; [done|].
  intros [H1 H2]%contains_cons_false Hr. split.
  - intros ->. destruct p as [|d p].
    + by apply (rstrip_fixed_last []) in Hr.
    + exists d, p. split; [done|]. intros ->. done.
  - destruct p as [|d p]; [done|]. apply IH; [done|].
    destruct (rstrip_length (d :: p)) as [|Hlt]; [done|].
    exfalso. unfold rstrip in Hr, Hlt. simpl in Hr, Hlt.
    apply (f_equal (@length N)) in Hr. rewrite length_rev in Hr, Hlt.
    simpl in Hr.
    assert (length (lstrip ((rev p ++ [d]) ++ [c]))
            <= S (length (lstrip (rev p ++ [d]))))%nat; [|lia].
    clear. generalize (rev p ++ [d]). intros l.
    induction l as [|x l IHl]; simpl.
    + destruct (isspace c); simpl; lia.
    + destruct (isspace x); [done|]. simpl. rewrite length_app. simpl. lia.
Qed.

Lemma segment_join (paragraphs : list ustring) :
  Forall paragraph_ok paragraphs ->
  segment (join blank_line paragraphs) = paragraphs.
Proof.
  induction 1 as [|p rest (Hne & Hs & Hc) Hrest IH]; [done|].
  destruct (strip_fixed_inv p Hs) as [_ Hr].
  destruct rest as [|q rest].
  - cbn [join]. unfold segment. rewrite split_without_boundary by done.
    cbn [filter_map]. rewrite Hs. by destruct p.
  - rewrite join_cons2. unfold segment in *.
    rewrite split_closed_piece by by apply closed_piece_intro.
    cbn [filter_map]. rewrite Hs.
    destruct p; [done|]. cbn [truthy]. f_equal. apply IH.
Qed.

(** ** Trimmed strings *)

Lemma strip_trimmed (s : ustring) : lstrip s = s -> rstrip s = s -> strip s = s.
Proof. intros Hl Hr. unfold strip. by rewrite Hl. Qed.

Lemma lstrip_app_fixed (a b : ustring) :
  a <> [] -> lstrip a = a -> lstrip (a ++ b) = a ++ b.
Proof.
  intros Ha Hl. destruct (lstrip_head a) as [H|(c & t & H & Hc)];
    rewrite Hl in H; [done|]. subst a. cbn [app]. by apply lstrip_fixed.
Qed.

Lemma rstrip_app_fixed (a b : ustring) :
  b <> [] -> rstrip b = b -> rstrip (a ++ b) = a ++ b.
Proof.
  intros Hb Hr. unfold rstrip in *. rewrite rev_app_distr.
  assert (Hl : lstrip (rev b) = rev b).
  { rewrite <- Hr at 2. by rewrite rev_involutive. }
  rewrite lstrip_app_fixed; [| |done].
  - by rewrite <- rev_app_distr, rev_involutive.
  - intros H. apply Hb. by rewrite <- (rev_involutive b), H.
Qed.

(** Joining trimmed pieces gives a trimmed string, whatever the separator. *)
Lemma join_trimmed (sep : ustring) (parts : list ustring) :
  parts <> [] -> Forall trimmed_nonempty parts ->
  trimmed_nonempty (join sep parts).
Proof.
  intros Hne Hall. induction Hall as [|p rest Hp Hrest IH]; [done|].
  destruct rest as [|q rest]; [done|].
  destruct Hp as (Hp0 & Hpl & Hpr).
  destruct (IH ltac:(done)) as (HJ0 & HJl & HJr).
  rewrite join_cons2. split; [|split].
  - by destruct p.
  - by apply lstrip_app_fixed.
  - rewrite !app_assoc. by apply rstrip_app_fixed.
Qed.

(** ** The content dictionary *)

Lemma uint_codes_inj (a b : Decimal.uint) : uint_codes a = uint_codes b -> a = b.
Proof.
  revert b; induction a; intros b; destruct b; simpl; intros H;
    try discriminate; try done; f_equal; apply IHa; congruence.
Qed.

Lemma str_of_N_inj (a b : N) : str_of_N a = str_of_N b -> a = b.
Proof.
  unfold str_of_N. intros H%uint_codes_inj.
  rewrite <- (DecimalN.Unsigned.of_to a), <- (DecimalN.Unsigned.of_to b).
  by rewrite H.
Qed.

Lemma paragraph_key_inj (i j : nat) : paragraph_key i = paragraph_key j -> i = j.
Proof.
  unfold paragraph_key. intros H%app_inv_head%str_of_N_inj. lia.
Qed.

#[local] Arguments paragraph_key : simpl never.

Lemma paragraph_key_eqb (i j : nat) :
  i <> j -> ustring_eqb (paragraph_key i) (paragraph_key j) = false.
Proof. intros H. apply ustring_eqb_neq. by intros ?%paragraph_key_inj. Qed.

Lemma dict_set_fresh {V} (k : ustring) (v : V) (d : pydict V) :
  dict_get k d = None -> dict_set k v d = d ++ [(k, v)].
Proof.
  induction d as [|[k' v'] d IH]; simpl; [done|].
  destruct (ustring_eqb k k'); [done|]. intros H. by rewrite IH.
Qed.

Lemma dict_get_app {V} (k : ustring) (d1 d2 : pydict V) :
  dict_get k (d1 ++ d2)
  = match dict_get k d1 with Some v => Some v | None => dict_get k d2 end.
Proof.
  induction d1 as [|[k' v'] d1 IH]; simpl; [done|].
  by destruct (ustring_eqb k k').
Qed.

(** The keys are pairwise different, so no step of the comprehension
    overwrites an earlier one: the dictionary lists the paragraphs in
    order. *)
Lemma content_fold (paragraphs : list ustring) (i : nat) (d : pydict ustring) :
  (forall j, (i <= j)%nat -> dict_get (paragraph_key j) d = None) ->
  fold_left (fun d ip => dict_set (paragraph_key (fst ip)) (snd ip) d)
            (enumerate_from i paragraphs) d
  = d ++ List.map content_entry (enumerate_from i paragraphs).
Proof.
  revert i d; induction paragraphs as [|p rest IH]; intros i d Hd;
    cbn [enumerate_from fold_left List.map fst snd].
  - by rewrite app_nil_r.
  - rewrite dict_set_fresh by (apply Hd; lia).
    rewrite IH.
    + by rewrite <- app_assoc.
    + intros j Hj. rewrite dict_get_app, Hd by lia. cbn [dict_get].
      rewrite paragraph_key_eqb by lia. done.
Qed.

Lemma content_of_enumerate (paragraphs : list ustring) :
  content_of paragraphs = List.map content_entry (enumerate paragraphs).
Proof. unfold content_of, enumerate. by rewrite content_fold. Qed.

Lemma content_lookup (paragraphs : list ustring) (i k : nat) :
  dict_get (paragraph_key (i + k))
           (List.map content_entry (enumerate_from i paragraphs))
  = paragraphs !! k.
Proof.
  revert i k; induction paragraphs as [|p rest IH]; intros i k;
    cbn [enumerate_from List.map dict_get content_entry fst snd].
  - by destruct k.
  - destruct k as [|k].
    + by rewrite Nat.add_0_r, ustring_eqb_refl.
    + rewrite paragraph_key_eqb by lia. cbn [lookup list_lookup].
      replace (i + S k)%nat with (S i + k)%nat by lia. apply IH.
Qed.

Lemma content_keys (paragraphs : list ustring) (i : nat) (k v : ustring) :
  dict_get k (List.map content_entry (enumerate_from i paragraphs)) = Some v ->
  exists j, k = paragraph_key (i + j) /\ paragraphs !! j = Some v.
Proof.
  revert i; induction paragraphs as [|p rest IH]; intros i;
    cbn [enumerate_from List.map dict_get content_entry fst snd]; [done|].
  destruct (ustring_eqb k (paragraph_key i)) eqn:E.
  - apply ustring_eqb_eq in E as ->. intros [= ->].
    exists 0%nat. by rewrite Nat.add_0_r.
  - intros (j & -> & Hj)%IH. exists (S j). split; [f_equal; lia|done].
Qed.

(** ** The claims about create_json_entry *)

(** C1. For every raw_text the segmentation of create_json_entry returns the
    pieces of raw_text between blank-line boundaries, each trimmed, those
    that are empty after trimming dropped, in their order; "A\n\nB\n\nC"
    gives A, B, C and "  \n\n  " gives nothing. The pieces are those of
    the split on "\n\n": none contains the boundary, and joined with it
    they give raw_text back. *)
Theorem C1_segment_split_trim_drop (raw_text : ustring) :
  segment raw_text
  = List.filter truthy (List.map strip (split blank_line raw_text))
  /\ join blank_line (split blank_line raw_text) = raw_text
  /\ Forall (fun p => contains blank_line p = false)
            (split blank_line raw_text)
  /\ segment (u "A" ++ blank_line ++ u "B" ++ blank_line ++ u "C")
     = [u "A"; u "B"; u "C"]
  /\ segment (u "  " ++ blank_line ++ u "  ") = [].
Proof.
  split; [apply segment_spec|].
  split; [by apply join_split|].
  split; [by apply split_pieces_clean|].
  split; reflexivity.
Qed.

(** C2. The record built by create_json_entry keeps raw_text verbatim in
    section_content, and its content maps "Paragraph_{i}", counting from 1,
    to the i-th non-empty trimmed segment of raw_text, in document order and
    with no other key; "Para one.\n\nPara two." gives Paragraph_1 and
    Paragraph_2. *)
Theorem C2_document_record (name type link iss res raw_text : ustring) :
  let entry := create_json_entry name type link iss res raw_text in
  section_content entry = raw_text
  /\ content entry
     = List.map content_entry (enumerate (spec_segments raw_text))
  /\ (forall i : nat,
        dict_get (u "Paragraph_" ++ str_of_N (N.of_nat (i + 1))) (content entry)
        = spec_segments raw_text !! i)
  /\ (forall k v, dict_get k (content entry) = Some v ->
        exists i : nat, k = u "Paragraph_" ++ str_of_N (N.of_nat (i + 1))
                  /\ spec_segments raw_text !! i = Some v)
  /\ content (create_json_entry name type link iss res
                (u "Para one." ++ blank_line ++ u "Para two."))
     = [(u "Paragraph_1", u "Para one."); (u "Paragraph_2", u "Para two.")].
Proof.
  cbn zeta. cbn [create_json_entry section_content content].
  rewrite segment_spec, content_of_enumerate.
  split; [done|]. split; [done|]. split; [|split].
  - intros i. apply (content_lookup _ 0 i).
  - intros k v H. by apply (content_keys _ 0) in H.
  - reflexivity.
Qed.

(** C8. The segmentation never returns an empty string, and it undoes the
    join of the readers: paragraphs that are non-empty, trimmed and free of
    the blank-line boundary, joined with the boundary, are segmented into
    themselves. *)
Theorem C8_join_segment_round_trip
    (raw_text : ustring) (paragraphs : list ustring)
    (Hok : Forall paragraph_ok paragraphs) :
  ~ In [] (segment raw_text)
  /\ segment (join blank_line paragraphs) = paragraphs.
Proof.
  split.
  - by intros H%segment_truthy.
  - by apply segment_join.
Qed.

Lemma C8_round_trip_witness :
  ~ In [] (segment (u "  " ++ blank_line ++ u " x "))
  /\ segment (join blank_line [u "Para one."; u "Para" ++ [LF] ++ u "two."])
     = [u "Para one."; u "Para" ++ [LF] ++ u "two."].
Proof.
  apply C8_join_segment_round_trip.
  repeat constructor; try discriminate; reflexivity.
Defined.

(** ** Running the program *)

Lemma bind_print {B} (s : ustring) (k : unit -> M B) (w : World) :
  bind (print s) k w = k tt (emit (s ++ [LF]) w).
Proof. reflexivity. Qed.

Lemma bind_input {B} (prompt line : ustring) (rest : list ustring)
    (k : ustring -> M B) (w : World) :
  stdin w = line :: rest ->
  bind (input prompt) k w
  = k line {| stdin := rest; stdout := stdout w ++ [prompt];
              files := files w |}.
Proof. intros H. unfold bind, input. cbn. by rewrite H. Qed.

Lemma read_pages_raises (before : list ustring) (e : exn)
    (rest : list (result ustring)) (acc : ustring) :
  read_pages (List.map Returns before ++ Raises e :: rest) acc = Raises e.
Proof. revert acc; induction before as [|t before IH]; intros acc; simpl; done. Qed.

Lemma read_pages_returns (texts : list ustring) (acc : ustring) :
  read_pages (List.map Returns texts) acc = Returns (acc ++ pages_text texts).
Proof.
  revert acc; induction texts as [|t texts IH]; intros acc; simpl.
  - by rewrite app_nil_r.
  - rewrite IH. unfold pages_text. simpl. by rewrite <- !app_assoc.
Qed.

Lemma extract_text_from_pdf_raises (env : Env) (path : ustring) (e : exn)
    (w : World) :
  pdf_raises env path e ->
  extract_text_from_pdf env path w
  = (Returns None, emit ((u "Error: " ++ exn_str e) ++ [LF]) w).
Proof.
  unfold extract_text_from_pdf, try_except, bind, lift.
  intros [->|(before & rest & ->)].
  - reflexivity.
  - by rewrite read_pages_raises.
Qed.

Lemma extract_text_from_pdf_returns (env : Env) (path : ustring)
    (texts : list ustring) (w : World) :
  fitz_open env path = Returns (List.map Returns texts) ->
  extract_text_from_pdf env path w
  = (Returns (Some (strip (pages_text texts))), w).
Proof.
  unfold extract_text_from_pdf, try_except, bind, lift. intros ->.
  by rewrite read_pages_returns.
Qed.

(** The state of the run when the branch for [choice] starts. *)
Lemma main_dispatch (env : Env) (w : World) (choice : ustring)
    (rest : list ustring) :
  stdin w = choice :: rest ->
  exists w1, main env w = dispatch env choice w1
             /\ stdin w1 = rest /\ files w1 = files w.
Proof.
  intros H. unfold main. rewrite !bind_print.
  erewrite bind_input by (cbn; exact H). eauto.
Qed.

Lemma branch_pdf_falsy (env : Env) (w : World) (path : ustring)
    (rest : list ustring) (raw_text : option ustring) (w2 : World) :
  stdin w = path :: rest ->
  extract_text_from_pdf env path
    {| stdin := rest;
       stdout := stdout w ++ [u "Enter the path to the PDF file: "];
       files := files w |} = (Returns raw_text, w2) ->
  falsy raw_text = true ->
  branch_pdf env w = (Returns tt, emit (pdf_failure_message ++ [LF]) w2).
Proof.
  intros Hin Hex Hf. unfold branch_pdf.
  erewrite bind_input by exact Hin.
  unfold bind at 1. rewrite Hex, Hf. reflexivity.
Qed.

Lemma last_emit (s : ustring) (w : World) : last (stdout (emit s w)) = Some s.
Proof. unfold emit. cbn [stdout]. apply last_snoc. Qed.

Lemma pages_text_line_ended (bodies : list ustring) :
  bodies <> [] ->
  pages_text (List.map (fun body => body ++ [LF]) bodies)
  = join blank_line bodies ++ blank_line.
Proof.
  intros Hne. induction bodies as [|b [|b' rest] IH]; [done| |].
  - unfold pages_text. cbn. by rewrite app_nil_r, <- app_assoc.
  - rewrite join_cons2. unfold pages_text in *. cbn [List.map concat] in *.
    rewrite IH by done. by rewrite <- !app_assoc.
Qed.

Lemma rstrip_blank_line (s : ustring) :
  rstrip s = s -> rstrip (s ++ blank_line) = s.
Proof. intros H. unfold rstrip in *. rewrite rev_app_distr. by cbn. Qed.

(** Pages whose texts end in a line feed come out joined by blank lines. *)
Lemma extract_pages_line_ended (env : Env) (pdf_path : ustring)
    (bodies : list ustring) (w : World) :
  fitz_open env pdf_path
  = Returns (List.map (fun body => Returns (body ++ [LF])) bodies) ->
  Forall trimmed_nonempty bodies ->
  extract_text_from_pdf env pdf_path w
  = (Returns (Some (join blank_line bodies)), w).
Proof.
  intros Hopen Htrim.
  rewrite (extract_text_from_pdf_returns env pdf_path
             (List.map (fun body => body ++ [LF]) bodies) w)
    by by rewrite List.map_map.
  destruct bodies as [|b rest]; [done|].
  rewrite pages_text_line_ended by done.
  destruct (join_trimmed blank_line (b :: rest) ltac:(done) Htrim)
    as (H0 & Hl & Hr).
  unfold strip. rewrite lstrip_app_fixed by done.
  by rewrite rstrip_blank_line.
Qed.

(** ** The claims about the PDF reader and the early returns *)

(** C3. page.get_text("text") gives the text of a page with a line feed at
    its end. For a PDF whose pages yield the texts "Page1 text" and
    "Page2 text" in this way, extract_text_from_pdf returns
    "Page1 text\n\nPage2 text": the line feed of the page and the one
    that line 15 adds make a blank line between two pages, and the final
    trim leaves no whitespace at either end. The same holds for any number
    of pages with non-empty trimmed texts. *)
Theorem C3_pdf_pages_joined_by_blank_line
    (env : Env) (pdf_path : ustring) (w : World) (bodies : list ustring)
    (Hopen : fitz_open env pdf_path
             = Returns (List.map (fun body => Returns (body ++ [LF])) bodies))
    (Htrim : Forall trimmed_nonempty bodies) :
  let t := join blank_line bodies in
  extract_text_from_pdf env pdf_path w = (Returns (Some t), w)
  /\ lstrip t = t /\ rstrip t = t
  /\ (bodies = [u "Page1 text"; u "Page2 text"] ->
      t = u "Page1 text" ++ blank_line ++ u "Page2 text").
Proof.
  cbn zeta. split; [by apply extract_pages_line_ended|].
  assert (Hends : lstrip (join blank_line bodies) = join blank_line bodies
                  /\ rstrip (join blank_line bodies) = join blank_line bodies).
  { destruct bodies as [|b rest]; [done|].
    by destruct (join_trimmed blank_line (b :: rest) ltac:(done) Htrim)
      as (_ & Hl & Hr). }
  destruct Hends as [Hl Hr]. split; [exact Hl|]. split; [exact Hr|].
  intros ->. reflexivity.
Qed.

Lemma C3_two_pages_witness :
  extract_text_from_pdf demo_env (u "two.pdf") (world_of [])
  = (Returns (Some (u "Page1 text" ++ blank_line ++ u "Page2 text")),
     world_of []).
Proof.
  assert (Htrim : Forall trimmed_nonempty [u "Page1 text"; u "Page2 text"]).
  { repeat constructor; try discriminate; reflexivity. }
  destruct (C3_pdf_pages_joined_by_blank_line demo_env (u "two.pdf")
              (world_of []) [u "Page1 text"; u "Page2 text"] eq_refl Htrim)
    as (H & _ & _ & Ht).
  rewrite <- (Ht eq_refl). exact H.
Defined.

(** C4. When the extraction raises, extract_text_from_pdf reports the error
    and returns None; main then prints the failure message and returns
    with the files untouched. An invalid choice ends main in the same way
    with its own message. *)
Theorem C4_failures_write_nothing (env : Env) (w : World) :
  (forall pdf_path e,
      pdf_raises env pdf_path e ->
      extract_text_from_pdf env pdf_path w
      = (Returns None, emit ((u "Error: " ++ exn_str e) ++ [LF]) w))
  /\ (forall pdf_path e rest,
        stdin w = u "3" :: pdf_path :: rest ->
        pdf_raises env pdf_path e ->
        exists w', main env w = (Returns tt, w')
                   /\ files w' = files w
                   /\ last (stdout w') = Some (pdf_failure_message ++ [LF]))
  /\ (forall choice rest,
        stdin w = choice :: rest ->
        ~ In choice [u "1"; u "2"; u "3"; u "4"] ->
        exists w', main env w = (Returns tt, w')
                   /\ files w' = files w
                   /\ last (stdout w') = Some (invalid_choice_message ++ [LF])).
Proof.
  split; [|split].
  - intros path e H. by apply extract_text_from_pdf_raises.
  - intros path e rest Hin He.
    destruct (main_dispatch env w _ _ Hin) as (w1 & -> & Hin1 & Hf1).
    change (dispatch env (u "3")) with (branch_pdf env).
    eexists. split.
    + eapply (branch_pdf_falsy _ _ _ _ None); [exact Hin1| |reflexivity].
      by apply extract_text_from_pdf_raises.
    + split; [exact Hf1|apply last_emit].
  - intros choice rest Hin Hno.
    destruct (main_dispatch env w _ _ Hin) as (w1 & -> & Hin1 & Hf1).
    unfold dispatch. rewrite !ustring_eqb_neq.
    + eexists. split; [reflexivity|]. split; [exact Hf1|apply last_emit].
    + intros ->. apply Hno. simpl. tauto.
    + intros ->. apply Hno. simpl. tauto.
    + intros ->. apply Hno. simpl. tauto.
    + intros ->. apply Hno. simpl. tauto.
Qed.

Lemma C4_failures_witness :
  extract_text_from_pdf demo_env (u "torn.pdf") (world_of [u "3"; u "torn.pdf"])
  = (Returns None,
     emit ((u "Error: " ++ u "page is damaged") ++ [LF])
          (world_of [u "3"; u "torn.pdf"]))
  /\ (exists w', main demo_env (world_of [u "3"; u "torn.pdf"]) = (Returns tt, w')
                 /\ files w' = ∅
                 /\ last (stdout w') = Some (pdf_failure_message ++ [LF]))
  /\ (exists w', main demo_env (world_of [u "5"]) = (Returns tt, w')
                 /\ files w' = ∅
                 /\ last (stdout w') = Some (invalid_choice_message ++ [LF])).
Proof.
  assert (Htorn : pdf_raises demo_env (u "torn.pdf")
                    (OtherException (u "page is damaged"))).
  { right. by exists [u "Page1 text" ++ [LF]], []. }
  split; [|split].
  - exact (proj1 (C4_failures_write_nothing demo_env _) _ _ Htorn).
  - exact (proj1 (proj2 (C4_failures_write_nothing demo_env
                           (world_of [u "3"; u "torn.pdf"])))
                 _ _ [] eq_refl Htorn).
  - apply (proj2 (proj2 (C4_failures_write_nothing demo_env (world_of [u "5"])))
                 (u "5") [] eq_refl).
    intros H. simpl in H. vm_compute in H.
    repeat (destruct H as [H|H]; [discriminate H|]). exact H.
Defined.

(** C10. A PDF that is read without error but whose text is empty after
    trimming makes extract_text_from_pdf return the empty string, and main
    then takes the abort path of a failed extraction: the failure message
    is printed and no file is written. *)
Theorem C10_empty_pdf_aborts
    (env : Env) (w : World) (pdf_path : ustring) (rest : list ustring)
    (texts : list ustring)
    (Hin : stdin w = u "3" :: pdf_path :: rest)
    (Hopen : fitz_open env pdf_path = Returns (List.map Returns texts))
    (Hempty : strip (pages_text texts) = []) :
  (forall w0, extract_text_from_pdf env pdf_path w0 = (Returns (Some []), w0))
  /\ exists w', main env w = (Returns tt, w')
                /\ files w' = files w
                /\ stdin w' = rest
                /\ last (stdout w') = Some (pdf_failure_message ++ [LF]).
Proof.
  assert (Hex : forall w0,
             extract_text_from_pdf env pdf_path w0 = (Returns (Some []), w0)).
  { intros w0. rewrite <- Hempty. by apply extract_text_from_pdf_returns. }
  split; [exact Hex|].
  destruct (main_dispatch env w _ _ Hin) as (w1 & -> & Hin1 & Hf1).
  change (dispatch env (u "3")) with (branch_pdf env).
  eexists. split.
  - eapply (branch_pdf_falsy _ _ _ _ (Some [])); [exact Hin1|apply Hex|reflexivity].
  - split; [exact Hf1|]. split; [reflexivity|apply last_emit].
Qed.

Lemma C10_empty_pdf_witness :
  (forall w0, extract_text_from_pdf demo_env (u "blank.pdf") w0
              = (Returns (Some []), w0))
  /\ exists w', main demo_env (world_of [u "3"; u "blank.pdf"; u "x"])
                = (Returns tt, w')
                /\ files w' = ∅
                /\ stdin w' = [u "x"]
                /\ last (stdout w') = Some (pdf_failure_message ++ [LF]).
Proof.
  exact (C10_empty_pdf_aborts demo_env (world_of [u "3"; u "blank.pdf"; u "x"])
           (u "blank.pdf") [u "x"] [[SPACE]] eq_refl eq_refl eq_refl).
Defined.

(** ** The parse tree *)

Lemma node_ind' (P : node -> Prop) :
  (forall k s, P (Str k s)) ->
  (forall name attrs cs, Forall P cs -> P (Tag name attrs cs)) ->
  forall n, P n.
Proof.
  intros Hstr Htag. fix IH 1. intros [k s|name attrs cs]; [apply Hstr|].
  apply Htag. induction cs as [|c cs IHcs]; constructor; [apply IH|apply IHcs].
Qed.

Lemma filter_map_app {A B} (f : A -> option B) (l1 l2 : list A) :
  filter_map f (l1 ++ l2) = filter_map f l1 ++ filter_map f l2.
Proof.
  induction l1 as [|x l1 IH]; simpl; [done|].
  destruct (f x); simpl; by rewrite IH.
Qed.

Lemma filter_map_concat {A B} (f : A -> option B) (ls : list (list A)) :
  filter_map f (concat ls) = concat (List.map (filter_map f) ls).
Proof.
  induction ls as [|l ls IH]; simpl; [done|].
  by rewrite filter_map_app, IH.
Qed.

Lemma filter_concat {A} (f : A -> bool) (ls : list (list A)) :
  List.filter f (concat ls) = concat (List.map (List.filter f) ls).
Proof.
  induction ls as [|l ls IH]; simpl; [done|].
  by rewrite List.filter_app, IH.
Qed.

Lemma map_ext_Forall {A B} (f g : A -> B) (l : list A) :
  Forall (fun x => f x = g x) l -> List.map f l = List.map g l.
Proof. induction 1; simpl; congruence. Qed.

Lemma all_strings_pick (tag : node) :
  all_strings true tag = filter_map pick_stripped (descendants tag).
Proof. reflexivity. Qed.

(** The walk over the descendants visits the strings that the recursion on
    the tree collects. *)
Lemma strings_at_or_below (n : node) :
  filter_map pick_stripped (n :: descendants n)
  = List.filter truthy (List.map strip (text_nodes n)).
Proof.
  induction n as [k s|name attrs cs IH] using node_ind'.
  - simpl. destruct (interesting k); [|done]. simpl.
    by destruct (truthy (strip s)).
  - cbn [filter_map pick_stripped descendants text_nodes].
    rewrite filter_map_concat, List.concat_map, filter_concat, !List.map_map.
    f_equal. by apply map_ext_Forall.
Qed.

Lemma all_strings_tag (name : ustring) (attrs : pydict attr_value)
    (cs : list node) :
  all_strings true (Tag name attrs cs)
  = List.filter truthy (List.map strip (text_nodes (Tag name attrs cs))).
Proof. rewrite <- strings_at_or_below. reflexivity. Qed.

Lemma is_tag_in_single (name : ustring) (n : node) :
  is_tag_in [name] n
  = match n with Str _ _ => false | Tag nm _ _ => ustring_eqb nm name end.
Proof. destruct n; simpl; [done|]. apply orb_false_r. Qed.

Lemma tags_at_or_below (name : ustring) (n : node) :
  List.filter (is_tag_in [name]) (n :: descendants n) = tags_named name n.
Proof.
  induction n as [k s|nm attrs cs IH] using node_ind'; [done|].
  cbn [List.filter descendants tags_named]. rewrite is_tag_in_single.
  replace (List.filter (is_tag_in [name])
             (concat (List.map (fun c => c :: descendants c) cs)))
    with (concat (List.map (tags_named name) cs)).
  - by destruct (ustring_eqb nm name).
  - rewrite filter_concat, List.map_map. f_equal. symmetry.
    by apply map_ext_Forall.
Qed.

Lemma find_all_below (name : ustring) (soup : node) :
  find_all [name] soup = tags_named_below name soup.
Proof.
  destruct soup as [k s|nm attrs cs]; [done|].
  unfold find_all. cbn [descendants tags_named_below].
  rewrite filter_concat, List.map_map. f_equal.
  apply List.map_ext. intros c. apply tags_at_or_below.
Qed.

Lemma Forall_concat {A} (P : A -> Prop) (ls : list (list A)) :
  Forall (Forall P) ls -> Forall P (concat ls).
Proof. induction 1; simpl; [constructor|]. by apply Forall_app. Qed.

Lemma tags_named_are_tags (name : ustring) (n : node) :
  Forall is_tag (tags_named name n).
Proof.
  induction n as [k s|nm attrs cs IH] using node_ind'; [constructor|].
  cbn [tags_named]. apply Forall_app. split.
  - destruct (ustring_eqb nm name); by repeat constructor.
  - apply Forall_concat. by apply Forall_map.
Qed.

Lemma tags_named_below_are_tags (name : ustring) (soup : node) :
  Forall is_tag (tags_named_below name soup).
Proof.
  destruct soup as [k s|nm attrs cs]; [constructor|].
  apply Forall_concat, Forall_map, Forall_forall.
  intros c _. apply tags_named_are_tags.
Qed.

Lemma truthy_join_filter (sep : ustring) (parts : list ustring) :
  truthy (join sep (List.filter truthy parts)) = existsb truthy parts.
Proof.
  induction parts as [|p parts IH]; [done|].
  cbn [List.filter existsb]. destruct (truthy p) eqn:E; [|done].
  destruct p as [|c p]; [done|].
  by destruct (List.filter truthy parts).
Qed.

Lemma existsb_map {A B} (f : A -> B) (g : B -> bool) (l : list A) :
  existsb g (List.map f l) = existsb (fun x => g (f x)) l.
Proof. induction l as [|x l IH]; simpl; [done|]. by rewrite IH. Qed.

Lemma get_text_tag (sep : ustring) (p : node) :
  is_tag p ->
  get_text sep true p
  = join sep (List.filter truthy (List.map strip (text_nodes p))).
Proof.
  destruct p as [k s|nm attrs cs]; [done|]. intros _.
  unfold get_text. by rewrite all_strings_tag.
Qed.

(** The comprehension of the readers computes the paragraph texts of the
    tags with visible text. *)
Lemma paragraph_texts_spec (soup : node) :
  paragraph_texts soup
  = List.map paragraph_text
      (List.filter has_visible_text (tags_named_below (u "p") soup)).
Proof.
  unfold paragraph_texts. rewrite find_all_below.
  induction (tags_named_below_are_tags (u "p") soup) as [|p ps Hp _ IH];
    [done|].
  cbn [filter_map List.filter]. rewrite !get_text_tag by done.
  rewrite truthy_join_filter, existsb_map.
  change (existsb (fun s => truthy (strip s)) (text_nodes p))
    with (has_visible_text p).
  destruct (has_visible_text p); [|done].
  cbn [List.map]. by rewrite IH.
Qed.

Lemma raise_for_status_class (r : Response) (e : exn) :
  raise_for_status r = Raises e -> is_RequestException e = true.
Proof.
  unfold raise_for_status.
  repeat match goal with |- context [if ?b then _ else _] => destruct b end;
    by intros [= <-].
Qed.

Lemma scrape_remote_gives (env : Env) (url : ustring) (headers : pydict ustring)
    (soup : node) (w : World) :
  fetch_gives env url headers soup ->
  try_except
    (let* response := lift (requests_get env url headers) in
     lift (raise_for_status response) ;;
     let* soup := lift (html_parser env (text response)) in
     ret (join blank_line (paragraph_texts soup)))
    is_RequestException
    (fun e => ret (u "Error: " ++ exn_str e)) w
  = (Returns (document_text soup), w).
Proof.
  intros (r & Hget & Hstatus & Hparse).
  unfold try_except, bind, lift. rewrite Hget, Hstatus, Hparse.
  unfold ret, document_text. by rewrite paragraph_texts_spec.
Qed.

Lemma scrape_remote_fails (env : Env) (url : ustring) (headers : pydict ustring)
    (e : exn) (w : World) :
  fetch_fails env url headers e ->
  try_except
    (let* response := lift (requests_get env url headers) in
     lift (raise_for_status response) ;;
     let* soup := lift (html_parser env (text response)) in
     ret (join blank_line (paragraph_texts soup)))
    is_RequestException
    (fun e => ret (u "Error: " ++ exn_str e)) w
  = (Returns (u "Error: " ++ exn_str e), w).
Proof.
  unfold try_except, bind, lift.
  intros [[Hget Hclass]|(r & Hget & Hstatus)]; rewrite Hget.
  - by rewrite Hclass.
  - rewrite Hstatus. by rewrite (raise_for_status_class r e).
Qed.

Lemma scrape_remote_breaks (env : Env) (url : ustring)
    (headers : pydict ustring) (e : exn) (w : World) :
  fetch_breaks env url headers e ->
  try_except
    (let* response := lift (requests_get env url headers) in
     lift (raise_for_status response) ;;
     let* soup := lift (html_parser env (text response)) in
     ret (join blank_line (paragraph_texts soup)))
    is_RequestException
    (fun e => ret (u "Error: " ++ exn_str e)) w
  = (Raises e, w).
Proof.
  unfold try_except, bind, lift.
  intros [Hclass [Hget|(r & Hget & Hstatus & Hparse)]]; rewrite Hget.
  - by rewrite Hclass.
  - rewrite Hstatus, Hparse. by rewrite Hclass.
Qed.

(** ** The claims about the HTML readers *)




(** C6, as the code has it. For a document fetched by scrape_sec_document or
    scrape_website_text the returned text is made of the <p> tags that have
    visible text, in document order, joined by a double newline; the text
    of a tag is the sequence of its strings, each trimmed, the empty ones
    dropped, joined by single spaces. Whitespace inside one string is kept
    as it is. *)
Theorem C6_paragraph_extraction (env : Env) (url : ustring) (w : World)
    (soup : node) :
  (fetch_gives env url [] soup ->
   scrape_sec_document env url w = (Returns (document_text soup), w))
  /\ (fetch_gives env url [(u "User-Agent", u "Mozilla/5.0")] soup ->
      scrape_website_text env url w = (Returns (document_text soup), w)).
Proof.
  split; intros H.
  - by apply scrape_remote_gives.
  - by apply (scrape_remote_gives env url _ soup w).
Qed.

Lemma demo_fetch_ab (headers : pydict ustring) :
  fetch_gives demo_env url_ab headers soup_ab.
Proof. eexists. repeat split; reflexivity. Qed.

Lemma C6_extraction_witness :
  scrape_sec_document demo_env url_ab (world_of [])
  = (Returns (u "a  b"), world_of [])
  /\ scrape_website_text demo_env url_ab (world_of [])
     = (Returns (u "a  b"), world_of []).
Proof.
  destruct (C6_paragraph_extraction demo_env url_ab (world_of []) soup_ab)
    as [Hsec Hweb].
  split; [apply Hsec|apply Hweb]; apply demo_fetch_ab.
Defined.

Lemma C6_collapse_counterexample :
  fetch_gives demo_env url_ab [] soup_ab
  /\ collapsed_document_text soup_ab = u "a b"
  /\ fst (scrape_sec_document demo_env url_ab (world_of []))
     <> Returns (collapsed_document_text soup_ab).
Proof.
  split; [apply demo_fetch_ab|]. split; [reflexivity|].
  vm_compute. discriminate.
Qed.

(** ** Cleaning a local document *)


Lemma is_tag_in_strip (names : list ustring) (n : node) :
  is_tag_in names (strip_table_attrs n) = is_tag_in names n.
Proof. by destruct n. Qed.



Lemma descendants_strip (n : node) :
  descendants (strip_table_attrs n)
  = List.map strip_table_attrs (descendants n).
Proof.
  induction n as [k s|name attrs cs IH] using node_ind'; [done|].
  cbn [strip_table_attrs descendants].
  rewrite List.concat_map, !List.map_map. f_equal.
  apply map_ext_Forall. eapply Forall_impl; [exact IH|].
  intros c Hc. cbn beta in *. cbn [List.map]. by rewrite Hc.
Qed.

Lemma descendants_strip_below (soup : node) :
  descendants (strip_table_attrs_below soup)
  = List.map strip_table_attrs (descendants soup).
Proof.
  destruct soup as [k s|name attrs cs]; [done|].
  cbn [strip_table_attrs_below descendants].
  rewrite List.concat_map, !List.map_map. f_equal.
  apply List.map_ext. intros c. cbn [List.map]. by rewrite descendants_strip.
Qed.

Lemma filter_map_list {A} (f : A -> bool) (g : A -> A) (l : list A) :
  (forall x, f (g x) = f x) ->
  List.filter f (List.map g l) = List.map g (List.filter f l).
Proof.
  intros H. induction l as [|x l IH]; simpl; [done|].
  rewrite H. destruct (f x); simpl; by rewrite IH.
Qed.

Lemma find_all_strip_below (names : list ustring) (soup : node) :
  find_all names (strip_table_attrs_below soup)
  = List.map strip_table_attrs (find_all names soup).
Proof.
  unfold find_all. rewrite descendants_strip_below.
  apply filter_map_list. intros c. apply is_tag_in_strip.
Qed.









(** ** Runs of main *)

Lemma runs_bind {A B : Type} (F : gmap ustring TextFile) (m : M A) (k : A -> M B)
    (Q : result B -> World -> Prop) :
  keeps_files m ->
  (forall a, runs F (k a) Q) ->
  (forall e w, files w = F -> Q (Raises e) w) ->
  runs F (bind m k) Q.
Proof.
  intros Hm Hk Hraise w Hw. unfold bind.
  specialize (Hm F w Hw). destruct (m w) as [[a|e] w1]; cbn in Hm.
  - by apply Hk.
  - by apply Hraise.
Qed.

Lemma keeps_files_print (s : ustring) : keeps_files (print s).
Proof. by intros F w Hw. Qed.

Lemma keeps_files_input (prompt : ustring) : keeps_files (input prompt).
Proof. intros F w Hw. unfold input. cbn. by destruct (stdin w). Qed.

Lemma keeps_files_lift {A} (r : result A) : keeps_files (lift r).
Proof. by intros F w Hw. Qed.

Lemma keeps_files_ret {A} (a : A) : keeps_files (ret a).
Proof. by intros F w Hw. Qed.

Lemma keeps_files_bind {A B} (m : M A) (k : A -> M B) :
  keeps_files m -> (forall a, keeps_files (k a)) -> keeps_files (bind m k).
Proof.
  intros Hm Hk F. apply runs_bind; [done| |done]. intros a. apply Hk.
Qed.

Lemma keeps_files_try {A} (body : M A) (handles : exn -> bool)
    (handler : exn -> M A) :
  keeps_files body -> (forall e, keeps_files (handler e)) ->
  keeps_files (try_except body handles handler).
Proof.
  intros Hb Hh F w Hw. unfold try_except.
  specialize (Hb F w Hw). destruct (body w) as [[a|e] w1]; cbn in Hb; [done|].
  destruct (handles e); [|done]. by apply Hh.
Qed.

Ltac keeps :=
  repeat first
    [ apply keeps_files_try | apply keeps_files_bind | apply keeps_files_print
    | apply keeps_files_input | apply keeps_files_lift | apply keeps_files_ret
    | intro ].

Lemma keeps_files_sec (env : Env) (url : ustring) :
  keeps_files (scrape_sec_document env url).
Proof. unfold scrape_sec_document. keeps. Qed.

Lemma keeps_files_local (env : Env) (file_path : ustring) :
  keeps_files (scrape_local_html env file_path).
Proof. unfold scrape_local_html, scrape_local_html_soup. keeps. Qed.

Lemma keeps_files_website (env : Env) (url : ustring) :
  keeps_files (scrape_website_text env url).
Proof. unfold scrape_website_text. keeps. Qed.

Lemma keeps_files_pdf (env : Env) (pdf_path : ustring) :
  keeps_files (extract_text_from_pdf env pdf_path).
Proof. unfold extract_text_from_pdf. keeps. Qed.

(** The common tail writes the file of the entry it builds, or raises
    before anything is written. *)
Lemma runs_save (env : Env) (F : gmap ustring TextFile)
    (name type link iss res raw_text : ustring) :
  runs F (save env name type link iss res raw_text) (outcome F).
Proof.
  intros w Hw. unfold save, bind, write_json, print.
  destruct (open_for_writing env _) as [e|]; cbn; [done|].
  right. exists (create_json_entry name type link iss res raw_text).
  split; [by rewrite Hw|]. split; [apply last_snoc|done].
Qed.

Lemma runs_abort (F : gmap ustring TextFile) (s : ustring) :
  s = pdf_failure_message \/ s = invalid_choice_message ->
  runs F (print s) (outcome F).
Proof.
  intros Hs w Hw. cbn. left. split; [done|].
  unfold aborted. cbn. rewrite last_snoc. destruct Hs as [->| ->]; auto.
Qed.

Ltac run_steps :=
  repeat first
    [ apply runs_save
    | apply runs_bind;
      [ first [ apply keeps_files_input | apply keeps_files_sec
              | apply keeps_files_local | apply keeps_files_website
              | apply keeps_files_pdf | apply keeps_files_print ]
      | intro
      | intros ? ? H; exact H ] ].

Lemma runs_branch_sec (env : Env) (F : gmap ustring TextFile) :
  runs F (branch_sec env) (outcome F).
Proof. unfold branch_sec. run_steps. Qed.

Lemma runs_branch_local (env : Env) (F : gmap ustring TextFile) :
  runs F (branch_local env) (outcome F).
Proof. unfold branch_local. run_steps. Qed.

Lemma runs_branch_website (env : Env) (F : gmap ustring TextFile) :
  runs F (branch_website env) (outcome F).
Proof. unfold branch_website. run_steps. Qed.

Lemma runs_branch_pdf (env : Env) (F : gmap ustring TextFile) :
  runs F (branch_pdf env) (outcome F).
Proof.
  unfold branch_pdf. run_steps.
  match goal with |- context [falsy ?r] => destruct (falsy r) end.
  - apply runs_abort. by left.
  - run_steps.
Qed.

Lemma runs_dispatch (env : Env) (F : gmap ustring TextFile) (choice : ustring) :
  runs F (dispatch env choice) (outcome F).
Proof.
  unfold dispatch.
  repeat match goal with |- context [if ?b then _ else _] => destruct b end.
  - apply runs_branch_sec.
  - apply runs_branch_local.
  - apply runs_branch_pdf.
  - apply runs_branch_website.
  - apply runs_abort. by right.
Qed.

(** Every run of main raises or returns early with the files untouched, or
    writes the one file of its entry. *)
Lemma runs_main (env : Env) (F : gmap ustring TextFile) :
  runs F (main env) (outcome F).
Proof. unfold main. run_steps. apply runs_dispatch. Qed.


(** ** The serialised text *)










Lemma returned_run {A} (m : M A) (w : World) (a : A) :
  fst (m w) = Returns a -> m w = (Returns a, snd (m w)).
Proof. destruct (m w) as [r w1]. cbn. by intros ->. Qed.

(** ** Reading a run of main backwards *)
















(** ** The claim about the output file *)



(** ** Worked examples *)

Example split_keeps_empty_pieces :
  split blank_line (u "a" ++ blank_line ++ blank_line ++ u "b")
  = [u "a"; []; u "b"].
Proof. reflexivity. Qed.

Example split_three_line_feeds : split blank_line [LF; LF; LF] = [[]; [LF]].
Proof. reflexivity. Qed.

Example strip_unicode_space : strip (0xA0 :: u " x " ++ [0x3000]) = u "x".
Proof. reflexivity. Qed.

Example segment_single_line_feed :
  segment (u "Page1 text" ++ [LF] ++ u "Page2 text")
  = [u "Page1 text" ++ [LF] ++ u "Page2 text"].
Proof. reflexivity. Qed.

Example document_name_of_path :
  splitext_root (basename (u "docs/annual report.v2.pdf"))
  = u "annual report.v2".
Proof. reflexivity. Qed.

Example splitext_leading_dot : splitext_root (u ".bashrc") = u ".bashrc".
Proof. reflexivity. Qed.

Example escape_latin : escape_char 0xE9 = BACKSLASH :: u "u00e9".
Proof. reflexivity. Qed.

Example escape_astral :
  escape_char pin = BACKSLASH :: u "ud83d" ++ BACKSLASH :: u "udccc".
Proof. reflexivity. Qed.

Example dumps_empty_content : json_dumps 4 (json_of_content []) = u "{}".
Proof. reflexivity. Qed.

Example dumps_content :
  json_dumps 4 (json_of_content (content_of [u "x"; u "y"]))
  = u "{" ++ [LF] ++ u "    " ++ encode_str (u "Paragraph_1") ++ u ": "
    ++ encode_str (u "x") ++ u "," ++ [LF] ++ u "    "
    ++ encode_str (u "Paragraph_2") ++ u ": " ++ encode_str (u "y")
    ++ [LF] ++ u "}".
Proof. reflexivity. Qed.

(** Strings of nested tags are joined by one space, comments are left out,
    and a nested paragraph is listed again on its own. *)
Example get_text_nested :
  paragraph_texts
    (document
       [Tag (u "p") []
            [ Str NavigableString (u " Hello");
              Tag (u "b") [] [Str NavigableString (u "World ")];
              Str Comment (u "hidden");
              Tag (u "p") [] [Str NavigableString (u "inner")] ];
        Tag (u "p") [] [Str NavigableString [SPACE; LF]]])
  = [u "Hello World inner"; u "inner"].
Proof. reflexivity. Qed.

Example table_attributes_popped :
  cleaned
    (document
       [Tag (u "table") [(u "border", AttrStr (u "1")); (u "id", AttrStr (u "t"));
                         (u "cellpadding", AttrStr (u "2"))]
            [Tag (u "p") [] [Str NavigableString (u "cell")]]])
  = document
      [Tag (u "table") [(u "id", AttrStr (u "t"))]
           [Tag (u "p") [] [Str NavigableString (u "cell")]]].
Proof. reflexivity. Qed.

Example http_error_message :
  scrape_sec_document demo_env url_gone (world_of [])
  = (Returns (u "Error: 404 Client Error: Not Found for url: " ++ url_gone),
     world_of []).
Proof. reflexivity. Qed.

Example end_of_input_raises :
  fst (main demo_env (world_of [u "1"]))
  = Raises (OtherException (u "EOF when reading a line")).
Proof. reflexivity. Qed.

(** * Further properties of the code *)

(** ** Segments *)

Lemma contains_nil_false (sep s : ustring) :
  contains sep s = false -> contains sep [] = false.
Proof. destruct sep; [by destruct s|done]. Qed.

Lemma contains_app_r (sep a b : ustring) :
  contains sep (a ++ b) = false -> contains sep b = false.
Proof.
  induction a as [|c a IH]; [done|].
  cbn [app]. intros [_ H]%contains_cons_false. by apply IH.
Qed.

Lemma contains_app_l (sep a b : ustring) :
  contains sep (a ++ b) = false -> contains sep a = false.
Proof.
  induction a as [|c a IH]; cbn [app].
  - apply contains_nil_false.
  - intros [H1 H2]%contains_cons_false. cbn [contains].
    rewrite (IH H2), orb_false_r.
    destruct (starts_with sep (c :: a)) eqn:E; [|done].
    apply (starts_with_app_l _ _ b) in E. cbn [app] in E. congruence.
Qed.

Lemma lstrip_suffix (s : ustring) : exists pre, s = pre ++ lstrip s.
Proof.
  induction s as [|c s [pre IH]]; [by exists []|].
  simpl. destruct (isspace c); [|by exists []].
  exists (c :: pre). simpl. by rewrite <- IH.
Qed.

Lemma rstrip_prefix (s : ustring) : exists suf, s = rstrip s ++ suf.
Proof.
  unfold rstrip. destruct (lstrip_suffix (rev s)) as [pre H].
  exists (rev pre). rewrite <- rev_app_distr, <- H.
  symmetry. apply rev_involutive.
Qed.

Lemma contains_strip (sep s : ustring) :
  contains sep s = false -> contains sep (strip s) = false.
Proof.
  intros H. unfold strip.
  destruct (lstrip_suffix s) as [pre Hpre]. rewrite Hpre in H.
  apply contains_app_r in H.
  destruct (rstrip_prefix (lstrip s)) as [suf Hsuf]. rewrite Hsuf in H.
  by apply contains_app_l in H.
Qed.

Lemma segment_ok (raw_text : ustring) : Forall paragraph_ok (segment raw_text).
Proof.
  apply List.Forall_forall. intros p Hp. split; [|split].
  - apply truthy_true. by apply (segment_truthy raw_text).
  - by apply (segment_trimmed raw_text).
  - rewrite segment_spec in Hp. apply filter_In in Hp as [Hp _].
    apply in_map_iff in Hp as (q & <- & Hq). apply contains_strip.
    pose proof (split_pieces_clean blank_line raw_text) as Hclean.
    rewrite List.Forall_forall in Hclean. by apply Hclean.
Qed.

(** X1. Every paragraph that create_json_entry cuts out is non-empty,
    trimmed and free of the blank-line boundary, so joining the paragraphs
    with the boundary and segmenting again gives the same paragraphs. *)
Theorem segment_stable (raw_text : ustring) :
  Forall paragraph_ok (segment raw_text)
  /\ segment (join blank_line (segment raw_text)) = segment raw_text.
Proof.
  split; [apply segment_ok|]. apply segment_join, segment_ok.
Qed.

Lemma lstrip_all_space (s : ustring) :
  Forall (fun c => isspace c = true) s -> lstrip s = [].
Proof. induction 1 as [|c s Hc _ IH]; simpl; [done|]. by rewrite Hc. Qed.

Lemma Forall_join_inv (P : N -> Prop) (sep : ustring) (parts : list ustring) :
  Forall P (join sep parts) -> Forall (Forall P) parts.
Proof.
  induction parts as [|p [|q rest] IH]; intros H.
  - constructor.
  - by repeat constructor.
  - rewrite join_cons2 in H. apply Forall_app in H as [Hp H].
    apply Forall_app in H as [_ H]. constructor; [done|by apply IH].
Qed.

Lemma In_join (sep : ustring) (parts : list ustring) (c : N) :
  In c (join sep parts) -> In c sep \/ exists p, In p parts /\ In c p.
Proof.
  induction parts as [|p [|q rest] IH]; intros H.
  - done.
  - right. exists p. split; [by left|done].
  - rewrite join_cons2 in H. apply in_app_or in H as [H|H].
    + right. exists p. split; [by left|done].
    + apply in_app_or in H as [H|H]; [by left|].
      destruct (IH H) as [?|(p' & Hp' & Hc)]; [by left|].
      right. exists p'. split; [by right|done].
Qed.

Lemma In_lstrip (s : ustring) (c : N) :
  In c s -> isspace c = false -> In c (lstrip s).
Proof.
  intros Hin Hc. induction s as [|x s IH]; [done|].
  simpl. destruct (isspace x) eqn:E; [|done].
  destruct Hin as [->|Hin]; [congruence|by apply IH].
Qed.

Lemma In_strip (s : ustring) (c : N) :
  In c s -> isspace c = false -> In c (strip s).
Proof.
  intros Hin Hc. unfold strip, rstrip.
  apply (proj1 (in_rev _ _)), In_lstrip; [|done].
  apply (proj1 (in_rev _ _)). by apply In_lstrip.
Qed.

Lemma segment_nil_iff (raw_text : ustring) :
  segment raw_text = [] <-> Forall (fun c => isspace c = true) raw_text.
Proof.
  rewrite segment_spec. unfold spec_segments. split.
  - intros Hnil. apply List.Forall_forall. intros c Hc.
    destruct (isspace c) eqn:E; [done|]. exfalso.
    rewrite <- (join_split blank_line raw_text) in Hc by done.
    apply In_join in Hc as [Hc|(p & Hp & Hc)].
    + destruct Hc as [<-|[<-|[]]]; discriminate E.
    + assert (Hin : In (strip p)
                       (List.filter truthy
                          (List.map strip (split blank_line raw_text)))).
      { apply filter_In. split; [by apply in_map|].
        apply truthy_true. intros Hs.
        pose proof (In_strip p c Hc E) as Hcs. by rewrite Hs in Hcs. }
      by rewrite Hnil in Hin.
  - intros Hall. rewrite <- (join_split blank_line raw_text) in Hall by done.
    apply Forall_join_inv in Hall.
    induction Hall as [|p parts Hp _ IH]; [done|].
    cbn [List.map List.filter]. unfold strip at 1.
    by rewrite (lstrip_all_space p Hp).
Qed.

(** X2. create_json_entry finds no paragraph exactly when raw_text consists
    of whitespace only (the empty string included); the content dictionary
    is then empty and is written as {}. *)
Theorem content_empty_iff (name type link iss res raw_text : ustring) :
  let entry := create_json_entry name type link iss res raw_text in
  (content entry = [] <-> Forall (fun c => isspace c = true) raw_text)
  /\ (content entry = [] ->
      json_dumps 4 (json_of_content (content entry)) = u "{}").
Proof.
  cbn zeta. cbn [create_json_entry content]. split.
  - rewrite <- segment_nil_iff, content_of_enumerate.
    destruct (segment raw_text); [done|]. split; discriminate.
  - by intros ->.
Qed.

Lemma content_empty_witness :
  json_dumps 4
    (json_of_content
       (content (create_json_entry [] [] [] [] [] [SPACE; LF; LF; 0xA0])))
  = u "{}".
Proof.
  apply (content_empty_iff [] [] [] [] [] [SPACE; LF; LF; 0xA0]).
  apply (content_empty_iff [] [] [] [] [] [SPACE; LF; LF; 0xA0]).
  by repeat constructor.
Defined.

(** ** Paragraph texts of the readers *)

Lemma stripped_pieces_trimmed (strings : list ustring) :
  Forall trimmed_nonempty (List.filter truthy (List.map strip strings)).
Proof.
  apply List.Forall_forall. intros s Hs. apply filter_In in Hs as [Hs Ht].
  apply in_map_iff in Hs as (s0 & <- & _).
  split; [by apply truthy_true|]. split; [apply lstrip_strip|apply rstrip_strip].
Qed.

Lemma existsb_filter_nonempty {A} (f : A -> bool) (l : list A) :
  existsb f l = true -> List.filter f l <> [].
Proof.
  induction l as [|x l IH]; simpl; [done|]. destruct (f x); [done|]. apply IH.
Qed.

Lemma paragraph_texts_trimmed (soup : node) :
  Forall trimmed_nonempty (paragraph_texts soup).
Proof.
  rewrite paragraph_texts_spec. apply List.Forall_forall. intros t Ht.
  apply in_map_iff in Ht as (p & <- & Hp). apply filter_In in Hp as [_ Hv].
  unfold paragraph_text. apply join_trimmed; [|apply stripped_pieces_trimmed].
  unfold has_visible_text in Hv. rewrite <- existsb_map in Hv.
  by apply existsb_filter_nonempty.
Qed.

(** X3. Every paragraph text the three HTML readers collect is non-empty and
    has no whitespace at its ends. *)
Theorem reader_paragraphs_trimmed (soup : node) (p : ustring) :
  In p (paragraph_texts soup) -> p <> [] /\ strip p = p.
Proof.
  intros Hp. pose proof (paragraph_texts_trimmed soup) as H.
  rewrite List.Forall_forall in H. destruct (H p Hp) as (H0 & Hl & Hr).
  split; [done|by apply strip_trimmed].
Qed.

Lemma reader_paragraphs_trimmed_witness :
  u "Hello" <> [] /\ strip (u "Hello") = u "Hello".
Proof.
  apply (reader_paragraphs_trimmed soup_hello). simpl. by left.
Defined.

(** X4. Reader and segmenter agree exactly when no paragraph text holds a
    blank line: then the paragraphs of create_json_entry on the joined text
    are the paragraph texts of the reader, one Paragraph_i per <p> with
    visible text; a <p> whose text holds a blank line is cut in pieces. *)
Theorem reader_segment_agree (soup : node) (name type link iss res : ustring) :
  let paragraphs := paragraph_texts soup in
  let raw_text := join blank_line paragraphs in
  (segment raw_text = paragraphs
   <-> Forall (fun p => contains blank_line p = false) paragraphs)
  /\ (Forall (fun p => contains blank_line p = false) paragraphs ->
      content (create_json_entry name type link iss res raw_text)
      = List.map content_entry (enumerate paragraphs)).
Proof.
  cbn zeta.
  assert (Hagree : Forall (fun p => contains blank_line p = false)
                     (paragraph_texts soup) ->
                   segment (join blank_line (paragraph_texts soup))
                   = paragraph_texts soup).
  { intros Hfree. apply segment_join. apply List.Forall_forall. intros p Hp.
    pose proof (paragraph_texts_trimmed soup) as Htrim.
    rewrite List.Forall_forall in Htrim, Hfree.
    destruct (Htrim p Hp) as (H0 & Hl & Hr).
    split; [done|]. split; [by apply strip_trimmed|by apply Hfree]. }
  split; [split; [|exact Hagree]|].
  - intros Heq. rewrite <- Heq. eapply Forall_impl; [apply segment_ok|].
    by intros p (_ & _ & Hp).
  - intros Hfree. cbn [create_json_entry content].
    by rewrite Hagree, content_of_enumerate.
Qed.

Lemma reader_segment_agree_witness :
  content (create_json_entry [] [] [] [] []
             (join blank_line (paragraph_texts soup_hello)))
  = List.map content_entry (enumerate (paragraph_texts soup_hello)).
Proof.
  apply (reader_segment_agree soup_hello [] [] [] [] []).
  repeat constructor.
Defined.

(** ** The local reader and the remote readers *)

Lemma filter_map_map {A B C} (f : B -> option C) (g : A -> B) (l : list A) :
  filter_map f (List.map g l) = filter_map (fun x => f (g x)) l.
Proof.
  induction l as [|x l IH]; simpl; [done|]. destruct (f (g x)); by rewrite IH.
Qed.

Lemma filter_map_ext {A B} (f g : A -> option B) (l : list A) :
  (forall x, f x = g x) -> filter_map f l = filter_map g l.
Proof.
  intros H. induction l as [|x l IH]; simpl; [done|]. by rewrite H, IH.
Qed.

Lemma get_text_strip (sep : ustring) (p : node) :
  get_text sep true (strip_table_attrs p) = get_text sep true p.
Proof.
  unfold get_text. rewrite !all_strings_pick, descendants_strip, filter_map_map.
  f_equal. apply filter_map_ext. by intros [k s|name attrs cs].
Qed.

(** Lines 50-52 change no text that is extracted afterwards. *)
Lemma paragraph_texts_strip_below (soup : node) :
  paragraph_texts (strip_table_attrs_below soup) = paragraph_texts soup.
Proof.
  unfold paragraph_texts. rewrite find_all_strip_below, filter_map_map.
  apply filter_map_ext. intros p. by rewrite !get_text_strip.
Qed.

Lemma Forall_concat_inv {A} (P : A -> Prop) (ls : list (list A)) :
  Forall P (concat ls) -> Forall (Forall P) ls.
Proof.
  induction ls as [|l ls IH]; simpl; [constructor|].
  intros [Hl Hls]%Forall_app. constructor; [done|by apply IH].
Qed.

Lemma filter_nil_inv {A} (f : A -> bool) (l : list A) :
  List.filter f l = [] -> Forall (fun x => f x = false) l.
Proof.
  induction l as [|x l IH]; simpl; [constructor|].
  destruct (f x) eqn:E; [done|]. intros H. constructor; [done|by apply IH].
Qed.

(** A tree without tags of the given names is left as it is. *)
Lemma decompose_all_id (names : list ustring) (n : node) :
  Forall (fun d => is_tag_in names d = false) (descendants n) ->
  decompose_all names n = n.
Proof.
  induction n as [k s|name attrs cs IH] using node_ind'; [done|].
  cbn [descendants decompose_all]. intros H%Forall_concat_inv.
  f_equal. induction IH as [|c cs Hc _ IHcs]; [done|].
  cbn [List.map] in H. apply Forall_cons in H as [Hhere Hrest].
  apply Forall_cons in Hhere as [Hname Hbelow].
  cbn [filter_map]. rewrite Hname, (Hc Hbelow). f_equal. by apply IHcs.
Qed.

Lemma scrape_local_html_returns (env : Env) (file_path html_content : ustring)
    (soup : node) (w : World) :
  read_text_file env file_path = Returns html_content ->
  html_parser env html_content = Returns soup ->
  scrape_local_html env file_path w
  = (Returns (document_text (decompose_all [u "script"; u "style"] soup)), w).
Proof.
  intros Hread Hparse. unfold scrape_local_html, scrape_local_html_soup, try_except, bind, lift.
  rewrite Hread, Hparse. unfold ret, document_text.
  by rewrite paragraph_texts_strip_below, paragraph_texts_spec.
Qed.

(** X5. The local reader returns what the remote readers would return on
    the document with its script and style elements removed: popping the
    table attributes changes nothing in the text. On a document without
    script and style elements the local and the remote readers return the
    same text. *)
Theorem local_reader_as_remote (env : Env) (file_path html_content : ustring)
    (soup : node) (w : World)
    (Hread : read_text_file env file_path = Returns html_content)
    (Hparse : html_parser env html_content = Returns soup) :
  scrape_local_html env file_path w
  = (Returns (document_text (decompose_all [u "script"; u "style"] soup)), w)
  /\ (find_all [u "script"; u "style"] soup = [] ->
      forall url,
        fetch_gives env url [] soup ->
        scrape_local_html env file_path w = scrape_sec_document env url w).
Proof.
  split; [by eapply scrape_local_html_returns|].
  intros Hnone url Hfetch.
  rewrite (scrape_local_html_returns env _ _ soup w Hread Hparse).
  rewrite decompose_all_id by by apply filter_nil_inv.
  symmetry. by apply scrape_remote_gives.
Qed.

Lemma local_reader_as_remote_witness :
  scrape_local_html demo_env (u "hello.html") (world_of [])
  = (Returns (document_text
                (decompose_all [u "script"; u "style"] soup_hello)),
     world_of []).
Proof.
  exact (proj1 (local_reader_as_remote demo_env (u "hello.html") html_hello
                  soup_hello (world_of []) eq_refl eq_refl)).
Defined.

(** X6. scrape_local_html and extract_text_from_pdf never raise. The local
    reader returns a string and leaves the world alone; the PDF reader
    returns a trimmed string with the world unchanged, or None after one
    line of error output, and touches neither the input nor the files. *)
Theorem local_and_pdf_never_raise (env : Env) (path : ustring) (w : World) :
  (exists s, scrape_local_html env path w = (Returns s, w))
  /\ ((exists t, extract_text_from_pdf env path w = (Returns (Some t), w)
                 /\ strip t = t)
      \/ (exists e, extract_text_from_pdf env path w
                    = (Returns None,
                       emit ((u "Error: " ++ exn_str e) ++ [LF]) w))).
Proof.
  split.
  - unfold scrape_local_html, scrape_local_html_soup, try_except, bind, lift.
    destruct (read_text_file env path) as [html|e]; [|by eexists].
    destruct (html_parser env html) as [soup|e]; by eexists.
  - unfold extract_text_from_pdf, try_except, bind, lift.
    destruct (fitz_open env path) as [doc|e]; [|right; by exists e].
    destruct (read_pages doc []) as [t|e]; [|right; by exists e].
    left. eexists. split; [reflexivity|apply strip_idem].
Qed.

(** X7. The remote readers catch RequestException only: another exception,
    raised by requests.get or by the parser, leaves scrape_sec_document and
    scrape_website_text as it is, and main then ends with that exception
    without writing a file. *)
Theorem remote_readers_propagate (env : Env) (url : ustring) (e : exn)
    (w : World) :
  (fetch_breaks env url [] e ->
   scrape_sec_document env url w = (Raises e, w)
   /\ forall rest, stdin w = u "1" :: url :: rest ->
        exists w', main env w = (Raises e, w')
                   /\ files w' = files w /\ stdin w' = rest)
  /\ (fetch_breaks env url website_headers e ->
      scrape_website_text env url w = (Raises e, w)
      /\ forall rest, stdin w = u "4" :: url :: rest ->
           exists w', main env w = (Raises e, w')
                      /\ files w' = files w /\ stdin w' = rest).
Proof.
  split; intros Hbreak.
  - split; [by apply scrape_remote_breaks|]. intros rest Hin.
    destruct (main_dispatch env w _ _ Hin) as (w1 & -> & Hin1 & Hf1).
    change (dispatch env (u "1")) with (branch_sec env). unfold branch_sec.
    erewrite bind_input by exact Hin1. unfold bind at 1.
    unfold scrape_sec_document.
    rewrite (scrape_remote_breaks env url [] e) by done.
    eexists. split; [reflexivity|]. split; [exact Hf1|reflexivity].
  - split; [by apply (scrape_remote_breaks env url _ e w)|]. intros rest Hin.
    destruct (main_dispatch env w _ _ Hin) as (w1 & -> & Hin1 & Hf1).
    change (dispatch env (u "4")) with (branch_website env).
    unfold branch_website.
    erewrite bind_input by exact Hin1. unfold bind at 1.
    unfold scrape_website_text.
    rewrite (scrape_remote_breaks env url website_headers e) by done.
    eexists. split; [reflexivity|]. split; [exact Hf1|reflexivity].
Qed.

Lemma remote_readers_propagate_witness :
  scrape_sec_document rejecting_env url_ab (world_of [u "1"; url_ab; u "x"])
  = (Raises (OtherException (u "The markup you provided was rejected")),
     world_of [u "1"; url_ab; u "x"])
  /\ exists w', main rejecting_env (world_of [u "1"; url_ab; u "x"])
                = (Raises (OtherException
                             (u "The markup you provided was rejected")), w')
                /\ files w' = ∅ /\ stdin w' = [u "x"].
Proof.
  assert (Hbreak : fetch_breaks rejecting_env url_ab []
                     (OtherException
                        (u "The markup you provided was rejected"))).
  { split; [reflexivity|]. right. eexists. repeat split; reflexivity. }
  destruct (proj1 (remote_readers_propagate rejecting_env url_ab _
                     (world_of [u "1"; url_ab; u "x"])) Hbreak)
    as [Hread Hmain].
  split; [exact Hread|]. exact (Hmain [u "x"] eq_refl).
Defined.

(** ** Whole runs of main *)

(** X8. A run of main that returns changes at most one path of the working
    directory and removes no file; if it returns without the message that
    names the saved file, that is, by one of the early returns, every file
    is as it was. *)
Theorem main_touches_one_file (env : Env) (w w' : World)
    (Hrun : main env w = (Returns tt, w')) :
  (~ succeeded w' -> files w' = files w)
  /\ (exists json_filename, forall path,
        path <> json_filename -> files w' !! path = files w !! path)
  /\ (forall path, is_Some (files w !! path) -> is_Some (files w' !! path)).
Proof.
  pose proof (runs_main env (files w) w eq_refl) as H.
  rewrite Hrun in H. cbn [fst snd outcome] in H.
  destruct H as [[Hsame _]|(entry & Hfiles & Hlast & _)].
  - rewrite Hsame. split; [done|]. split; [by exists []|done].
  - split; [intros Hno; destruct Hno; by eexists|].
    rewrite Hfiles. split.
    + exists (output_name entry). intros path Hne. by apply lookup_insert_ne.
    + intros path Hsome.
      destruct (decide (output_name entry = path)) as [<-|Hne].
      * rewrite lookup_insert_eq. by eexists.
      * by rewrite lookup_insert_ne.
Qed.

Lemma main_touches_one_file_witness :
  files (snd (main demo_env (world_of [u "5"; u "x"]))) = ∅.
Proof.
  assert (Hrun : main demo_env (world_of [u "5"; u "x"])
                 = (Returns tt, snd (main demo_env (world_of [u "5"; u "x"])))).
  { apply returned_run. vm_compute. reflexivity. }
  apply (proj1 (main_touches_one_file demo_env _ _ Hrun)).
  intros [fn Hfn]. vm_compute in Hfn. discriminate Hfn.
Defined.

Lemma save_run (env : Env) (name type link iss res raw_text : ustring)
    (w : World) :
  let entry := create_json_entry name type link iss res raw_text in
  open_for_writing env (output_name entry) = None ->
  save env name type link iss res raw_text w
  = (Returns tt,
     emit (saved_message (output_name entry) ++ [LF])
          {| stdin := stdin w; stdout := stdout w;
             files := <[output_name entry := output_file entry]> (files w) |}).
Proof.
  cbn zeta. intros Hopen. unfold save, bind, write_json.
  change (replace_char SPACE UNDERSCORE name ++ u ".json")
    with (output_name (create_json_entry name type link iss res raw_text)).
  by rewrite Hopen.
Qed.

Lemma branch_sec_run (env : Env) (w : World)
    (url name iss raw_text : ustring) (rest : list ustring) :
  let entry :=
    create_json_entry name (u "Raw Financials") url iss (u "SEC") raw_text in
  stdin w = url :: name :: iss :: rest ->
  (forall w0, scrape_sec_document env url w0 = (Returns raw_text, w0)) ->
  open_for_writing env (output_name entry) = None ->
  exists w', branch_sec env w = (Returns tt, w')
             /\ stdin w' = rest
             /\ files w' = <[output_name entry := output_file entry]> (files w)
             /\ last (stdout w')
                = Some (saved_message (output_name entry) ++ [LF]).
Proof.
  cbn zeta. intros Hin Hscrape Hopen. unfold branch_sec.
  erewrite bind_input by exact Hin. unfold bind at 1. rewrite Hscrape.
  erewrite bind_input by reflexivity. erewrite bind_input by reflexivity.
  rewrite save_run by exact Hopen.
  eexists. split; [reflexivity|]. split; [reflexivity|].
  split; [reflexivity|apply last_emit].
Qed.

Lemma branch_website_run (env : Env) (w : World)
    (url name iss res raw_text : ustring) (rest : list ustring) :
  let entry := create_json_entry name (u "Market") url iss res raw_text in
  stdin w = url :: name :: iss :: res :: rest ->
  (forall w0, scrape_website_text env url w0 = (Returns raw_text, w0)) ->
  open_for_writing env (output_name entry) = None ->
  exists w', branch_website env w = (Returns tt, w')
             /\ stdin w' = rest
             /\ files w' = <[output_name entry := output_file entry]> (files w)
             /\ last (stdout w')
                = Some (saved_message (output_name entry) ++ [LF]).
Proof.
  cbn zeta. intros Hin Hscrape Hopen. unfold branch_website.
  erewrite bind_input by exact Hin. unfold bind at 1. rewrite Hscrape.
  erewrite bind_input by reflexivity. erewrite bind_input by reflexivity.
  erewrite bind_input by reflexivity.
  rewrite save_run by exact Hopen.
  eexists. split; [reflexivity|]. split; [reflexivity|].
  split; [reflexivity|apply last_emit].
Qed.

Lemma main_sec_run (env : Env) (w : World)
    (url name iss raw_text : ustring) (rest : list ustring) :
  let entry :=
    create_json_entry name (u "Raw Financials") url iss (u "SEC") raw_text in
  stdin w = u "1" :: url :: name :: iss :: rest ->
  (forall w0, scrape_sec_document env url w0 = (Returns raw_text, w0)) ->
  open_for_writing env (output_name entry) = None ->
  saved_run env w rest entry.
Proof.
  cbn zeta. intros Hin Hscrape Hopen.
  destruct (main_dispatch env w _ _ Hin) as (w1 & Hmain & Hin1 & Hf1).
  destruct (branch_sec_run env w1 url name iss raw_text rest Hin1 Hscrape Hopen)
    as (w' & Hrun & Hrest & Hfiles & Hlast).
  exists w'. rewrite Hmain.
  change (dispatch env (u "1")) with (branch_sec env).
  split; [exact Hrun|]. split; [exact Hrest|]. by rewrite Hfiles, Hf1.
Qed.

Lemma main_website_run (env : Env) (w : World)
    (url name iss res raw_text : ustring) (rest : list ustring) :
  let entry := create_json_entry name (u "Market") url iss res raw_text in
  stdin w = u "4" :: url :: name :: iss :: res :: rest ->
  (forall w0, scrape_website_text env url w0 = (Returns raw_text, w0)) ->
  open_for_writing env (output_name entry) = None ->
  saved_run env w rest entry.
Proof.
  cbn zeta. intros Hin Hscrape Hopen.
  destruct (main_dispatch env w _ _ Hin) as (w1 & Hmain & Hin1 & Hf1).
  destruct (branch_website_run env w1 url name iss res raw_text rest
              Hin1 Hscrape Hopen)
    as (w' & Hrun & Hrest & Hfiles & Hlast).
  exists w'. rewrite Hmain.
  change (dispatch env (u "4")) with (branch_website env).
  split; [exact Hrun|]. split; [exact Hrest|]. by rewrite Hfiles, Hf1.
Qed.

(** X9. In the two remote modes a fetched document is saved with the
    metadata main fixes for the mode: mode 1 reads URL, document name and
    issuer and records the type "Raw Financials" and the resource "SEC";
    mode 4 reads URL, document name, issuer and resource name and records
    the type "Market"; in both the link is the URL and the text is the
    document text of the reader. *)
Theorem remote_modes_save (env : Env) (w : World)
    (url name iss res : ustring) (rest : list ustring) (soup : node)
    (Hopen : open_for_writing env
               (replace_char SPACE UNDERSCORE name ++ u ".json") = None) :
  (stdin w = u "1" :: url :: name :: iss :: rest ->
   fetch_gives env url [] soup ->
   saved_run env w rest
     (create_json_entry name (u "Raw Financials") url iss (u "SEC")
        (document_text soup)))
  /\ (stdin w = u "4" :: url :: name :: iss :: res :: rest ->
      fetch_gives env url website_headers soup ->
      saved_run env w rest
        (create_json_entry name (u "Market") url iss res (document_text soup))).
Proof.
  split; intros Hin Hfetch.
  - apply main_sec_run; [done| |done]. intros w0. by apply scrape_remote_gives.
  - apply main_website_run; [done| |done]. intros w0.
    by apply (scrape_remote_gives env url website_headers soup w0).
Qed.

Lemma remote_modes_save_witness :
  saved_run demo_env (world_of [u "1"; url_ab; u "10-K Report"; u "ACME"]) []
    (create_json_entry (u "10-K Report") (u "Raw Financials") url_ab (u "ACME")
       (u "SEC") (document_text soup_ab)).
Proof.
  apply (proj1 (remote_modes_save demo_env _ url_ab (u "10-K Report")
                  (u "ACME") [] [] soup_ab eq_refl));
    [reflexivity|apply demo_fetch_ab].
Defined.

(** X10. In the remote modes a failed request does not stop the run: the
    string "Error: ..." takes the place of the document text, and the file
    is written with it as section_content. *)
Theorem remote_failure_is_saved (env : Env) (w : World)
    (url name iss res : ustring) (rest : list ustring) (e : exn)
    (Hopen : open_for_writing env
               (replace_char SPACE UNDERSCORE name ++ u ".json") = None) :
  (stdin w = u "1" :: url :: name :: iss :: rest ->
   fetch_fails env url [] e ->
   saved_run env w rest
     (create_json_entry name (u "Raw Financials") url iss (u "SEC")
        (u "Error: " ++ exn_str e)))
  /\ (stdin w = u "4" :: url :: name :: iss :: res :: rest ->
      fetch_fails env url website_headers e ->
      saved_run env w rest
        (create_json_entry name (u "Market") url iss res
           (u "Error: " ++ exn_str e))).
Proof.
  split; intros Hin Hfetch.
  - apply main_sec_run; [done| |done]. intros w0. by apply scrape_remote_fails.
  - apply main_website_run; [done| |done]. intros w0.
    by apply (scrape_remote_fails env url website_headers e w0).
Qed.

Lemma remote_failure_is_saved_witness :
  saved_run demo_env
    (world_of [u "4"; u "https://example.com/down"; u "News"; u "ACME"; u "web"])
    []
    (create_json_entry (u "News") (u "Market") (u "https://example.com/down")
       (u "ACME") (u "web") (u "Error: " ++ u "Connection refused")).
Proof.
  apply (proj2 (remote_failure_is_saved demo_env _ (u "https://example.com/down")
                  (u "News") (u "ACME") (u "web") []
                  (RequestException (u "Connection refused")) eq_refl));
    [reflexivity|]. left. split; reflexivity.
Defined.

(** X11. The local mode always reaches the save (the reader cannot raise):
    it reads the path and the issuer, names the document after the path
    without directory and extension, and records the type "Raw Financials",
    the link "N/A" and the resource "SEC". *)
Theorem local_mode_saves (env : Env) (w : World)
    (file_path iss : ustring) (rest : list ustring)
    (Hin : stdin w = u "2" :: file_path :: iss :: rest)
    (Hopen : open_for_writing env
               (replace_char SPACE UNDERSCORE
                  (splitext_root (basename file_path)) ++ u ".json") = None) :
  exists raw_text,
    (forall w0, scrape_local_html env file_path w0 = (Returns raw_text, w0))
    /\ saved_run env w rest
         (create_json_entry (splitext_root (basename file_path))
            (u "Raw Financials") (u "N/A") iss (u "SEC") raw_text).
Proof.
  assert (Hscrape : exists raw_text, forall w0,
             scrape_local_html env file_path w0 = (Returns raw_text, w0)).
  { unfold scrape_local_html, scrape_local_html_soup, try_except, bind, lift.
    destruct (read_text_file env file_path) as [html|e]; [|by eexists].
    destruct (html_parser env html) as [soup|e]; by eexists. }
  destruct Hscrape as [raw_text Hscrape]. exists raw_text.
  split; [exact Hscrape|].
  destruct (main_dispatch env w _ _ Hin) as (w1 & Hmain & Hin1 & Hf1).
  unfold saved_run. rewrite Hmain.
  change (dispatch env (u "2")) with (branch_local env). unfold branch_local.
  erewrite bind_input by exact Hin1. unfold bind at 1. rewrite Hscrape.
  erewrite bind_input by reflexivity.
  rewrite save_run by exact Hopen.
  eexists. split; [reflexivity|]. split; [reflexivity|].
  split; [cbn; by rewrite Hf1|apply last_emit].
Qed.

Lemma local_mode_saves_witness :
  exists raw_text,
    (forall w0, scrape_local_html demo_env (u "docs/missing file.html") w0
                = (Returns raw_text, w0))
    /\ saved_run demo_env
         (world_of [u "2"; u "docs/missing file.html"; u "ACME"]) []
         (create_json_entry (u "missing file") (u "Raw Financials") (u "N/A")
            (u "ACME") (u "SEC") raw_text).
Proof.
  exact (local_mode_saves demo_env
           (world_of [u "2"; u "docs/missing file.html"; u "ACME"])
           (u "docs/missing file.html") (u "ACME") [] eq_refl eq_refl).
Defined.

(** X12. In the PDF mode a document with text is saved under the name of the
    file without directory and extension, with the link "N/A" and with the
    type, issuer and resource name read from the input; its text is the
    trimmed text of the pages. *)
Theorem pdf_mode_saves (env : Env) (w : World)
    (pdf_path type iss res : ustring) (rest : list ustring)
    (texts : list ustring)
    (Hin : stdin w = u "3" :: pdf_path :: type :: iss :: res :: rest)
    (Hpdf : fitz_open env pdf_path = Returns (List.map Returns texts))
    (Htext : strip (pages_text texts) <> [])
    (Hopen : open_for_writing env
               (replace_char SPACE UNDERSCORE
                  (splitext_root (basename pdf_path)) ++ u ".json") = None) :
  saved_run env w rest
    (create_json_entry (splitext_root (basename pdf_path)) type (u "N/A")
       iss res (strip (pages_text texts))).
Proof.
  destruct (main_dispatch env w _ _ Hin) as (w1 & Hmain & Hin1 & Hf1).
  unfold saved_run. rewrite Hmain.
  change (dispatch env (u "3")) with (branch_pdf env). unfold branch_pdf.
  erewrite bind_input by exact Hin1. unfold bind at 1.
  rewrite (extract_text_from_pdf_returns env pdf_path texts) by exact Hpdf.
  replace (falsy (Some (strip (pages_text texts)))) with false
    by (cbn; by destruct (strip (pages_text texts))).
  cbn [str_value].
  erewrite bind_input by reflexivity. erewrite bind_input by reflexivity.
  erewrite bind_input by reflexivity.
  rewrite save_run by exact Hopen.
  eexists. split; [reflexivity|]. split; [reflexivity|].
  split; [cbn; by rewrite Hf1|apply last_emit].
Qed.

Lemma pdf_mode_saves_witness :
  saved_run demo_env
    (world_of [u "3"; u "two.pdf"; u "Report"; u "ACME"; u "Filings"]) []
    (create_json_entry (u "two") (u "Report") (u "N/A") (u "ACME")
       (u "Filings") (u "Page1 text" ++ blank_line ++ u "Page2 text")).
Proof.
  apply (pdf_mode_saves demo_env
           (world_of [u "3"; u "two.pdf"; u "Report"; u "ACME"; u "Filings"])
           (u "two.pdf") (u "Report") (u "ACME") (u "Filings") []
           [u "Page1 text" ++ [LF]; u "Page2 text" ++ [LF]] eq_refl eq_refl);
    [discriminate|reflexivity].
Defined.

(** ** The name of the output file *)

Lemma rfind_from_spec (c : N) (s : ustring) (i last : Z) :
  (last < i)%Z ->
  let r := rfind_from c i s last in
  (r = last /\ ~ In c s)
  \/ ((i <= r)%Z /\ ~ In c (drop (S (Z.to_nat (r - i))) s)).
Proof.
  revert i last. induction s as [|x s IH]; intros i last Hlt; cbn zeta.
  - left. split; [reflexivity|intros []].
  - cbn [rfind_from].
    destruct (IH (i + 1)%Z (if x =? c then i else last)) as [[Hr Hnot]|[Hr Hnot]].
    + destruct (x =? c); lia.
    + destruct (N.eqb_spec x c) as [->|Hne].
      * right. rewrite Hr. split; [lia|].
        replace (i - i)%Z with 0%Z by lia. exact Hnot.
      * left. split; [exact Hr|]. intros [?|?]; [congruence|done].
    + right. split; [lia|].
      replace (Z.to_nat (rfind_from c (i + 1) s (if x =? c then i else last) - i))
        with (S (Z.to_nat (rfind_from c (i + 1) s
                             (if x =? c then i else last) - (i + 1))))
        by lia.
      exact Hnot.
Qed.

Lemma basename_no_slash (p : ustring) : ~ In SLASH (basename p).
Proof.
  unfold basename, rfind.
  destruct (rfind_from_spec SLASH p 0 (-1) ltac:(lia)) as [[Hr Hnot]|[Hr Hnot]].
  - by rewrite Hr.
  - replace (Z.to_nat (rfind_from SLASH 0 p (-1) + 1))
      with (S (Z.to_nat (rfind_from SLASH 0 p (-1) - 0))) by lia.
    exact Hnot.
Qed.

Lemma In_take (n : nat) (s : ustring) (c : N) : In c (take n s) -> In c s.
Proof.
  revert n; induction s as [|x s IH]; intros [|n]; simpl; try done.
  intros [?|?]; [by left|right; by eapply IH].
Qed.

Lemma In_splitext_root (s : ustring) (c : N) :
  In c (splitext_root s) -> In c s.
Proof.
  unfold splitext_root.
  match goal with |- context [if ?b then _ else _] => destruct b end;
    [apply In_take|done].
Qed.

Lemma In_replace_char (old new : N) (s : ustring) (c : N) :
  In c (replace_char old new s) -> c = new \/ (In c s /\ c <> old).
Proof.
  unfold replace_char. intros H.
  apply List.in_map_iff in H as (x & Hx & Hin).
  destruct (N.eqb_spec x old) as [Heq|Hne]; [by left|].
  right. subst c. by split.
Qed.

(** X13. The name of the output file ends in ".json" and contains no space,
    whatever the document name; in the local and PDF modes, where the
    document name comes from the path, it contains no "/" either, so the
    file is written into the working directory. *)
Theorem output_name_shape (name type link iss res raw_text path : ustring) :
  (exists stem,
      output_name (create_json_entry name type link iss res raw_text)
      = stem ++ u ".json"
      /\ length stem = length name /\ ~ In SPACE stem)
  /\ ~ In SPACE (output_name
                   (create_json_entry name type link iss res raw_text))
  /\ ~ In SLASH (output_name
                   (create_json_entry (splitext_root (basename path))
                      type link iss res raw_text)).
Proof.
  assert (Hstem : forall s, ~ In SPACE (replace_char SPACE UNDERSCORE s)).
  { intros s [H|[_ H]]%In_replace_char; [discriminate H|done]. }
  unfold output_name. cbn [create_json_entry document_name].
  split; [|split].
  - eexists. split; [reflexivity|]. split; [|apply Hstem].
    unfold replace_char. apply length_map.
  - intros [H|H]%in_app_or; [by apply Hstem in H|].
    simpl in H. repeat (destruct H as [H|H]; [discriminate H|]). done.
  - intros [H|H]%in_app_or.
    + apply In_replace_char in H as [H|[H _]]; [discriminate H|].
      by apply In_splitext_root, basename_no_slash in H.
    + simpl in H. repeat (destruct H as [H|H]; [discriminate H|]). done.
Qed.

(** ** Pages and paragraphs *)

Lemma paragraph_ok_trimmed (p : ustring) : paragraph_ok p -> trimmed_nonempty p.
Proof.
  intros (H0 & Hs & _). destruct (strip_fixed_inv p Hs). by split.
Qed.

(** X14. Pages are paragraphs: when the text of every page, up to the line
    feed that ends it, is non-empty, trimmed and free of blank lines,
    extract_text_from_pdf returns the page texts joined by blank lines and
    create_json_entry makes one paragraph of each page, Paragraph_i being
    the text of page i. *)
Theorem pdf_pages_are_paragraphs (env : Env) (pdf_path : ustring) (w : World)
    (bodies : list ustring) (name type link iss res : ustring)
    (Hpdf : fitz_open env pdf_path
            = Returns (List.map (fun body => Returns (body ++ [LF])) bodies))
    (Hok : Forall paragraph_ok bodies) :
  extract_text_from_pdf env pdf_path w
  = (Returns (Some (join blank_line bodies)), w)
  /\ content (create_json_entry name type link iss res
                (join blank_line bodies))
     = List.map content_entry (enumerate bodies).
Proof.
  split.
  - apply extract_pages_line_ended; [exact Hpdf|].
    eapply Forall_impl; [exact Hok|apply paragraph_ok_trimmed].
  - cbn [create_json_entry content].
    by rewrite segment_join, content_of_enumerate.
Qed.

Lemma pdf_pages_are_paragraphs_witness :
  extract_text_from_pdf demo_env (u "two.pdf") (world_of [])
  = (Returns (Some (join blank_line [u "Page1 text"; u "Page2 text"])),
     world_of [])
  /\ content (create_json_entry [] [] [] [] []
                (join blank_line [u "Page1 text"; u "Page2 text"]))
     = [(u "Paragraph_1", u "Page1 text"); (u "Paragraph_2", u "Page2 text")].
Proof.
  apply (pdf_pages_are_paragraphs demo_env (u "two.pdf") (world_of [])
           [u "Page1 text"; u "Page2 text"] [] [] [] [] [] eq_refl).
  repeat constructor; try discriminate; reflexivity.
Defined.

(** ** Edge cases of the readers *)

Lemma raise_for_status_ok (r : Response) :
  raise_for_status r = Returns tt
  <-> ~ (400 <= status_code r < 600)%Z.
Proof.
  unfold raise_for_status.
  destruct (Z.leb_spec 400 (status_code r)), (Z.ltb_spec (status_code r) 500),
    (Z.leb_spec 500 (status_code r)), (Z.ltb_spec (status_code r) 600);
    cbn; split; try done; try lia.
Qed.

(** X15. The remote readers treat a response as a document unless its status
    is a 4xx or 5xx one: any other status, 2xx or not, has its body parsed
    and its paragraphs returned, and a 4xx or 5xx status gives the error
    string of raise_for_status. *)
Theorem remote_status_rule (env : Env) (url : ustring) (r : Response)
    (soup : node) (w : World)
    (Hget : requests_get env url [] = Returns r)
    (Hparse : html_parser env (text r) = Returns soup) :
  (~ (400 <= status_code r < 600)%Z ->
   scrape_sec_document env url w = (Returns (document_text soup), w))
  /\ ((400 <= status_code r < 600)%Z ->
      exists msg, raise_for_status r = Raises (RequestException msg)
                  /\ scrape_sec_document env url w
                     = (Returns (u "Error: " ++ msg), w)).
Proof.
  split.
  - intros Hstatus%raise_for_status_ok. apply scrape_remote_gives.
    by exists r.
  - intros Hstatus.
    destruct (raise_for_status r) as [[]|e] eqn:E.
    + apply raise_for_status_ok in E. lia.
    + pose proof (raise_for_status_class r e E) as Hclass.
      destruct e as [msg|msg]; [|discriminate Hclass].
      exists msg. split; [done|].
      apply (scrape_remote_fails env url [] (RequestException msg) w).
      right. by exists r.
Qed.

Lemma remote_status_rule_witness :
  exists msg,
    raise_for_status {| status_code := 404; reason := u "Not Found";
                        response_url := url_gone; text := [] |}
    = Raises (RequestException msg)
    /\ scrape_sec_document demo_env url_gone (world_of [])
       = (Returns (u "Error: " ++ msg), world_of []).
Proof.
  apply (proj2 (remote_status_rule demo_env url_gone
                  {| status_code := 404; reason := u "Not Found";
                     response_url := url_gone; text := [] |}
                  (document []) (world_of []) eq_refl eq_refl)).
  cbn. lia.
Defined.

(** The descendants of a descendant stand together in the walk. *)
Lemma descendants_infix (n d : node) :
  In d (descendants n) ->
  exists pre post, descendants n = pre ++ d :: descendants d ++ post.
Proof.
  induction n as [k s|name attrs cs IH] using node_ind'; [done|].
  cbn [descendants]. induction IH as [|c cs Hc _ IHcs]; [done|].
  cbn [List.map concat]. intros [[<-|Hin]|Hin]%in_app_or.
  - exists [], (concat (List.map (fun c => c :: descendants c) cs)).
    reflexivity.
  - destruct (Hc Hin) as (pre & post & Heq).
    exists (c :: pre),
      (post ++ concat (List.map (fun c => c :: descendants c) cs)).
    rewrite Heq. cbn [app]. f_equal. rewrite <- app_assoc. cbn [app].
    f_equal. by rewrite <- app_assoc.
  - destruct (IHcs Hin) as (pre & post & Heq).
    exists ((c :: descendants c) ++ pre), post.
    rewrite Heq. by rewrite <- !app_assoc.
Qed.

Lemma find_all_In (names : list ustring) (n d : node) :
  In d (find_all names n) <-> In d (descendants n) /\ is_tag_in names d = true.
Proof. unfold find_all. apply filter_In. Qed.

Lemma paragraph_texts_In (soup p : node) :
  In p (find_all [u "p"] soup) ->
  get_text [] true p <> [] ->
  In (get_text [SPACE] true p) (paragraph_texts soup).
Proof.
  unfold paragraph_texts. induction (find_all [u "p"] soup) as [|q ps IH];
    [done|].
  intros [->|Hin] Hvis; cbn [filter_map].
  - destruct (get_text [] true p); [done|]. by left.
  - destruct (truthy (get_text [] true q)); [right|]; by apply IH.
Qed.

(** X16. A <p> nested in another <p> is found on its own as well: its strings
    stand, in order, among the strings of the enclosing tag, so where it has
    visible text the readers list that text twice, in the paragraph of the
    enclosing tag and as a paragraph of its own. *)
Theorem nested_paragraph_repeated (soup outer inner : node)
    (Houter : In outer (find_all [u "p"] soup))
    (Hinner : In inner (find_all [u "p"] outer)) :
  In inner (find_all [u "p"] soup)
  /\ (exists before after,
        all_strings true outer = before ++ all_strings true inner ++ after)
  /\ (get_text [] true inner <> [] ->
      In (get_text [SPACE] true outer) (paragraph_texts soup)
      /\ In (get_text [SPACE] true inner) (paragraph_texts soup)).
Proof.
  apply find_all_In in Houter as [Houter Hp].
  apply find_all_In in Hinner as [Hinner Hq].
  destruct (descendants_infix soup outer Houter) as (pre & post & Hsoup).
  destruct (descendants_infix outer inner Hinner) as (pre' & post' & Hout).
  assert (Hin : In inner (find_all [u "p"] soup)).
  { apply find_all_In. split; [|done]. rewrite Hsoup.
    apply in_or_app. right. right. apply in_or_app. by left. }
  assert (Hinfix : exists before after,
             all_strings true outer = before ++ all_strings true inner ++ after).
  { rewrite !all_strings_pick, Hout.
    exists (filter_map pick_stripped pre'), (filter_map pick_stripped post').
    rewrite filter_map_app. f_equal.
    change (inner :: descendants inner ++ post')
      with ([inner] ++ descendants inner ++ post').
    rewrite !filter_map_app.
    replace (filter_map pick_stripped [inner]) with (@nil ustring); [done|].
    by destruct inner. }
  split; [exact Hin|]. split; [exact Hinfix|].
  intros Hvis. split; [|by apply paragraph_texts_In].
  apply paragraph_texts_In; [by apply find_all_In|].
  destruct Hinfix as (before & after & Hstr).
  unfold get_text in *. rewrite Hstr. intros Hnil. apply Hvis.
  destruct (all_strings true inner) as [|s strs] eqn:E; [done|].
  exfalso. clear -Hnil E.
  assert (Hs : s <> []).
  { assert (Hin : In s (all_strings true inner)) by (rewrite E; by left).
    rewrite all_strings_pick in Hin. clear E.
    induction (descendants inner) as [|d ds IH]; [done|].
    cbn [filter_map] in Hin.
    destruct d as [k x|]; cbn [pick_stripped] in Hin; [|by apply IH].
    destruct (interesting k); [|by apply IH].
    destruct (truthy (strip x)) eqn:Et; [|by apply IH].
    destruct Hin as [<-|Hin]; [by apply truthy_true|by apply IH]. }
  assert (Hjoin : forall parts : list ustring,
             In s parts -> join [] parts <> []).
  { intros parts. induction parts as [|p [|q rest] IHp]; [done| |].
    - intros [->|[]]. done.
    - intros [->|Hin]; rewrite join_cons2.
      + by destruct s.
      + intros Happ. apply app_eq_nil in Happ as [_ Happ].
        by apply IHp in Hin. }
  apply (Hjoin (before ++ (s :: strs) ++ after)); [|done].
  apply in_or_app. right. by left.
Qed.

Lemma nested_paragraph_repeated_witness :
  let inner := Tag (u "p") [] [Str NavigableString (u "b")] in
  let outer := Tag (u "p") [] [Str NavigableString (u "a"); inner] in
  In (u "a b") (paragraph_texts (document [outer]))
  /\ In (u "b") (paragraph_texts (document [outer])).
Proof.
  intros inner outer.
  apply (nested_paragraph_repeated (document [outer]) outer inner).
  - simpl. by left.
  - simpl. by left.
  - discriminate.
Defined.

Lemma join_nil_inv (sep : ustring) (parts : list ustring) :
  Forall trimmed_nonempty parts -> join sep parts = [] -> parts = [].
Proof.
  intros Hall Hnil. destruct parts as [|p rest]; [done|].
  assert (H : trimmed_nonempty (join sep (p :: rest)))
    by by apply join_trimmed.
  destruct H as [H _]. by rewrite Hnil in H.
Qed.

(** X17. The remote readers return the empty string exactly when no <p> of
    the document has visible text, a document without any <p> included; the
    record made of that result has an empty content dictionary. *)
Theorem empty_document_text (env : Env) (url : ustring) (soup : node)
    (w : World) (name type link iss res : ustring)
    (Hfetch : fetch_gives env url [] soup) :
  let raw_text := join blank_line (paragraph_texts soup) in
  scrape_sec_document env url w = (Returns raw_text, w)
  /\ (raw_text = []
      <-> Forall (fun p => get_text [] true p = []) (find_all [u "p"] soup))
  /\ (raw_text = [] ->
      content (create_json_entry name type link iss res raw_text) = []).
Proof.
  cbn zeta. split; [|split].
  - pose proof (scrape_remote_gives env url [] soup w Hfetch) as H.
    unfold document_text in H. rewrite <- paragraph_texts_spec in H. exact H.
  - split.
    + intros Hnil%join_nil_inv; [|apply paragraph_texts_trimmed].
      unfold paragraph_texts in Hnil.
      induction (find_all [u "p"] soup) as [|p ps IH]; [constructor|].
      cbn [filter_map] in Hnil.
      destruct (get_text [] true p) eqn:E; [|done].
      constructor; [done|by apply IH].
    + intros Hall. unfold paragraph_texts.
      replace (filter_map _ (find_all [u "p"] soup)) with (@nil ustring);
        [done|].
      induction Hall as [|p ps Hp _ IH]; [done|].
      cbn [filter_map]. by rewrite Hp.
  - by intros ->.
Qed.

Lemma empty_document_text_witness :
  scrape_sec_document demo_env url_ab (world_of [])
  = (Returns (join blank_line (paragraph_texts soup_ab)), world_of []).
Proof.
  exact (proj1 (empty_document_text demo_env url_ab soup_ab (world_of [])
                  [] [] [] [] [] (demo_fetch_ab []))).
Defined.
